(** * Country-name reconciliation and births-weighted coverage

    A shallow embedding of the data-preparation script
    [03_scripts/data_preparation/02_clean_merge_data.py] and of the
    aggregation script [03_scripts/analysis/01_calculate_coverage.py],
    with the properties their specification states about them.

    Conventions of the embedding.
    - A Python [str] is the list of its Unicode code points.
    - A cell of an object column is either the missing value [NaN] or a
      string; a cell of a numeric column is an [option] of a number, [None]
      being the missing value.
    - A data frame is the list of its rows, in row order.
    - Numbers are kept abstract behind the class [Num]; it has two
      instances, exact rationals and IEEE binary64. *)

From Stdlib Require Import String Ascii.
From Stdlib Require Import List Bool Arith ZArith NArith QArith Qabs Lia Lqa.
From Stdlib Require Import Permutation Sorted.
From Stdlib Require Import PrimFloat Uint63.
Import ListNotations.

Close Scope Q_scope.
Open Scope nat_scope.

(** ** Python strings *)

Module PyStr.

Definition t := list N.

(** An ASCII literal of the source, as code points. *)
Definition lit (s : string) : t :=
  List.map N_of_ascii (list_ascii_of_string s).

Fixpoint eqb (a b : t) : bool :=
  match a, b with
  | [], [] => true
  | x :: a', y :: b' => N.eqb x y && eqb a' b'
  | _, _ => false
  end.

(** [str.isspace] on one code point: the code points Python's
    [str.strip()] removes. *)
Definition isspace (c : N) : bool :=
  ((9 <=? c) && (c <=? 13) || (28 <=? c) && (c <=? 32)
   || (c =? 133) || (c =? 160) || (c =? 5760)
   || (8192 <=? c) && (c <=? 8202)
   || (c =? 8232) || (c =? 8233) || (c =? 8239) || (c =? 8287)
   || (c =? 12288))%N.

Fixpoint lstrip (s : t) : t :=
  match s with
  | [] => []
  | c :: s' => if isspace c then lstrip s' else s
  end.

Fixpoint rstrip (s : t) : t :=
  match s with
  | [] => []
  | c :: s' =>
      match rstrip s' with
      | [] => if isspace c then [] else [c]
      | r => c :: r
      end
  end.

(** [s.strip()] *)
Definition strip (s : t) : t := rstrip (lstrip s).

(** [str.lower] on one code point.  Upper-case ASCII letters, the Kelvin
    sign (U+212A) and capital I with dot above (U+0130) are the only code
    points whose lower-case form contains an ASCII character; every other
    code point lowers to code points outside ASCII and is left in place
    here, which changes no comparison with an ASCII literal. *)
Definition lower_cp (c : N) : list N :=
  if ((65 <=? c) && (c <=? 90))%N then [(c + 32)%N]
  else if (c =? 8490)%N then [107%N]
  else if (c =? 304)%N then [105%N; 775%N]
  else [c].

(** [s.lower()] *)
Definition lower (s : t) : t := flat_map lower_cp s.

Fixpoint startswith (p s : t) : bool :=
  match p, s with
  | [], _ => true
  | x :: p', y :: s' => N.eqb x y && startswith p' s'
  | _ :: _, [] => false
  end.

(** [p in s] *)
Fixpoint contains (p s : t) : bool :=
  startswith p s ||
  match s with
  | [] => false
  | _ :: s' => contains p s'
  end.

End PyStr.

Definition pystr : Type := PyStr.t.

(** [u "..."] is the ASCII literal ["..."] of the source. *)
Definition u (s : string) : pystr := PyStr.lit s.
Arguments u s%_string.

(** ** Cells, exceptions, printed lines *)

(** A cell of an object column: [np.nan] or a string. *)
Inductive cell :=
| NaN
| Str (s : pystr).

(** Equality of cells, as a join compares its keys: missing keys match
    each other. *)
Definition cell_eqb (a b : cell) : bool :=
  match a, b with
  | NaN, NaN => true
  | Str s, Str s' => PyStr.eqb s s'
  | _, _ => false
  end.

(** [pd.isna] *)
Definition isna (c : cell) : bool :=
  match c with NaN => true | Str _ => false end.

(** [str(x)] on one cell, which is also what [Series.astype(str)] does to
    a cell of an object column in pandas before version 3.  From pandas 3
    on a missing cell stays missing; [astype_str_on] below has both. *)
Definition astype_str (c : cell) : pystr :=
  match c with
  | NaN => u "nan"
  | Str s => s
  end.

Inductive exn :=
| ZeroDivisionError
| KeyError (label : pystr)
| IndexError.

Inductive outcome (A : Type) :=
| Return (a : A)
| Raise (e : exn).
Arguments Return {A} a.
Arguments Raise {A} e.

(** The lines the scripts print, with the numbers they interpolate. *)
Inductive msg :=
| Cleaning_population_data
| Population_data_cleaned (n : nat)
| Warning_no_births_column
| Creating_country_mapping
| Merging_datasets
| Filtered_from_to (before after : nat)
| After_filtering (unicef population mortality : nat)
| After_merging_unicef (n : nat)
| After_merging_population (n : nat)
| Warning_no_population_data.

(** ** Numbers *)

(** The arithmetic the scripts use on [float64] columns. *)
Class Num (T : Type) := {
  zero : T;
  of_Z : Z -> T;
  add : T -> T -> T;
  mul : T -> T -> T;
  div : T -> T -> T;
  absv : T -> T;
  eqb : T -> T -> bool;
  leb : T -> T -> bool
}.

(** Exact arithmetic: the numbers as rationals, no rounding. *)
#[export] Instance Num_Q : Num Q := {
  zero := 0%Q;
  of_Z := inject_Z;
  add := Qplus;
  mul := Qmult;
  div := Qdiv;
  absv := Qabs;
  eqb := Qeq_bool;
  leb := Qle_bool
}.

Definition float_of_Z (z : Z) : float :=
  match z with
  | Zneg p => PrimFloat.opp (PrimFloat.of_uint63 (Uint63.of_Z (Zpos p)))
  | _ => PrimFloat.of_uint63 (Uint63.of_Z z)
  end.

(** Machine arithmetic: IEEE 754 binary64, as the interpreter computes. *)
#[export] Instance Num_float : Num float := {
  zero := 0%float;
  of_Z := float_of_Z;
  add := PrimFloat.add;
  mul := PrimFloat.mul;
  div := PrimFloat.div;
  absv := PrimFloat.abs;
  eqb := PrimFloat.eqb;
  leb := PrimFloat.leb
}.

(** ** Mortality classification: [classify_status] *)

Definition on_track : pystr := u "on-track".
Definition off_track : pystr := u "off-track".

(** The function applied to column [Status.U5MR].  Both remaining branches
    of the source return ['off-track']. *)
Definition classify_status (status : cell) : cell :=
  if isna status then NaN
  else
    let status_lower := PyStr.lower (astype_str status) in
    if existsb (PyStr.eqb status_lower) [u "achieved"; u "on-track"]
    then Str on_track
    else if PyStr.contains (u "acceleration needed") status_lower
         then Str off_track
         else Str off_track.

(** ** Country names: [create_country_mapping], [standardize_country_names] *)

(** A [dict] with string keys, as the list of its items. *)
Definition dict := list (pystr * pystr).

Fixpoint lookup (d : dict) (k : pystr) : option pystr :=
  match d with
  | [] => None
  | (k', v) :: d' => if PyStr.eqb k' k then Some v else lookup d' k
  end.

(** The two non-ASCII targets are spelled with their code points:
    U+00F4 in the name of Ivory Coast, U+00FC in the name of Turkey. *)
Definition create_country_mapping : dict :=
  [ (u "United States of America", u "United States");
    (u "USA", u "United States");
    (u "US", u "United States");
    (u "United Kingdom",
     u "United Kingdom of Great Britain and Northern Ireland");
    (u "UK", u "United Kingdom of Great Britain and Northern Ireland");
    (u "Russia", u "Russian Federation");
    (u "South Korea", u "Republic of Korea");
    (u "North Korea", u "Democratic People's Republic of Korea");
    (u "Iran", u "Iran (Islamic Republic of)");
    (u "Venezuela", u "Venezuela (Bolivarian Republic of)");
    (u "Bolivia", u "Bolivia (Plurinational State of)");
    (u "Tanzania", u "United Republic of Tanzania");
    (u "Congo", u "Congo");
    (u "Democratic Republic of the Congo",
     u "Democratic Republic of the Congo");
    (u "Ivory Coast", u "C" ++ [244%N] ++ u "te d'Ivoire");
    (u "Cape Verde", u "Cabo Verde");
    (u "Swaziland", u "Eswatini");
    (u "Macedonia", u "North Macedonia");
    (u "Myanmar", u "Myanmar");
    (u "Burma", u "Myanmar");
    (u "East Timor", u "Timor-Leste");
    (u "Moldova", u "Republic of Moldova");
    (u "Syria", u "Syrian Arab Republic");
    (u "Laos", u "Lao People's Democratic Republic");
    (u "Vietnam", u "Viet Nam");
    (u "Brunei", u "Brunei Darussalam");
    (u "Micronesia", u "Micronesia (Federated States of)");
    (u "Palestine", u "State of Palestine");
    (u "Turkey", u "T" ++ [252%N] ++ u "rkiye") ].

(** [Series.replace(mapping)] on one cell: a cell equal to a key becomes
    the key's value, any other cell stays. *)
Definition replace (mapping : dict) (c : cell) : cell :=
  match c with
  | NaN => NaN
  | Str s => match lookup mapping s with
             | Some v => Str v
             | None => Str s
             end
  end.

(** What [standardize_country_names] does to one entry of the column. *)
Definition standardize_name (mapping : dict) (c : cell) : cell :=
  Str (PyStr.strip (astype_str (replace mapping c))).

(** The normaliser of one name, [normalize(x, M)]: the same steps on a
    string. *)
Definition normalize (x : pystr) (M : dict) : pystr :=
  astype_str (standardize_name M (Str x)).

(** A row: the join column [Country] and the other columns. *)
Record row (A : Type) := mkRow { Country : cell; data : A }.
Arguments mkRow {A} Country data.
Arguments Country {A} r.
Arguments data {A} r.

Definition frame (A : Type) := list (row A).

(** [standardize_country_names(df, mapping=...)]; every call of the
    pipeline passes the mapping. *)
Definition standardize_country_names {A} (df : frame A) (mapping : dict)
  : frame A :=
  map (fun r => mkRow (standardize_name mapping (Country r)) (data r)) df.

(** ** Regional aggregates: [filter_individual_countries] *)

(** The fragment of [re] the patterns are written in, searched with
    [re.IGNORECASE]. *)
Module Re.

Inductive atom :=
| Lit (c : N)      (* a literal character *)
| Dot              (* [.] *)
| DotStar          (* [.*] *)
| Eol.             (* [$] *)

Definition pattern := list atom.

Definition lits (s : pystr) : pattern := map Lit s.

(** Simple lower-casing as the matcher applies it to a character of the
    text; as in [PyStr.lower_cp], a code point that does not lower to
    ASCII is left in place. *)
Definition sre_lower (c : N) : N :=
  if ((65 <=? c) && (c <=? 90))%N then (c + 32)%N
  else if (c =? 8490)%N then 107%N
  else if (c =? 304)%N then 105%N
  else c.

(** A literal of the pattern against a character of the text; dotless i
    (U+0131) and long s (U+017F) are the matcher's extra equivalents of
    [i] and [s]. *)
Definition lit_match (c d : N) : bool :=
  let lo := sre_lower c in
  (sre_lower d =? lo)%N
  || ((lo =? 105) && (d =? 305))%N
  || ((lo =? 115) && (d =? 383))%N.

Definition newline : N := 10%N.

(** [$] matches at the end and before a final newline. *)
Definition at_end (s : pystr) : bool :=
  match s with
  | [] => true
  | [c] => (c =? newline)%N
  | _ => false
  end.

(** Does the pattern match at the start of the text? *)
Fixpoint match_here (p : pattern) (s : pystr) {struct p} : bool :=
  match p with
  | [] => true
  | Lit c :: p' =>
      match s with
      | d :: s' => lit_match c d && match_here p' s'
      | [] => false
      end
  | Dot :: p' =>
      match s with
      | d :: s' => negb (d =? newline)%N && match_here p' s'
      | [] => false
      end
  | DotStar :: p' =>
      (fix star (s : pystr) : bool :=
         match_here p' s ||
         match s with
         | d :: s' => negb (d =? newline)%N && star s'
         | [] => false
         end) s
  | Eol :: p' => at_end s && match_here p' s
  end.

(** [re.search(p, s)] finds a match. *)
Fixpoint search (p : pattern) (s : pystr) : bool :=
  match_here p s ||
  match s with
  | [] => false
  | _ :: s' => search p s'
  end.

End Re.

Definition regional_patterns : list Re.pattern :=
  [ [Re.Lit 40%N; Re.DotStar] ++ Re.lits (u "SDGRC")
      ++ [Re.DotStar; Re.Lit 41%N];
    Re.lits (u "Africa") ++ [Re.Eol];
    Re.lits (u "Asia") ++ [Re.Eol];
    Re.lits (u "Europe") ++ [Re.Eol];
    Re.lits (u "America");
    Re.lits (u "World");
    Re.lits (u "Developed");
    Re.lits (u "Developing");
    Re.lits (u "Least developed");
    Re.lits (u "Land") ++ [Re.Dot] ++ Re.lits (u "locked");
    Re.lits (u "Small island");
    Re.lits (u "Sub-Saharan");
    Re.lits (u "Northern Africa");
    Re.lits (u "Eastern Africa");
    Re.lits (u "Western Africa");
    Re.lits (u "Middle Africa");
    Re.lits (u "Southern Africa");
    Re.lits (u "Eastern Asia");
    Re.lits (u "South-eastern Asia");
    Re.lits (u "Southern Asia");
    Re.lits (u "Western Asia");
    Re.lits (u "Central Asia");
    Re.lits (u "Eastern Europe");
    Re.lits (u "Northern Europe");
    Re.lits (u "Southern Europe");
    Re.lits (u "Western Europe");
    Re.lits (u "Caribbean");
    Re.lits (u "Central America");
    Re.lits (u "South America");
    Re.lits (u "Northern America");
    Re.lits (u "Oceania");
    Re.lits (u "Polynesia");
    Re.lits (u "Melanesia");
    Re.lits (u "Micronesia");
    Re.lits (u "More developed");
    Re.lits (u "Less developed");
    Re.lits (u "High income");
    Re.lits (u "Upper middle income");
    Re.lits (u "Lower middle income");
    Re.lits (u "Low income") ].

(** [Series.str.contains(combined_pattern, case=False, na=False)] on one
    cell; the combined pattern is the alternation of the patterns. *)
Definition str_contains_regional (c : cell) : bool :=
  match c with
  | NaN => false
  | Str s => existsb (fun p => Re.search p s) regional_patterns
  end.

Definition filter_individual_countries {A} (df : frame A)
  : frame A * list msg :=
  let mask := fun r => negb (str_contains_regional (Country r)) in
  let df_filtered := filter mask df in
  (df_filtered, [Filtered_from_to (length df) (length df_filtered)]).

(** ** The merge: [merge_datasets] *)

(** [left.merge(right, on='Country', how='inner')]: one output row for
    every pair of a left and a right row with equal keys.  The rows are
    listed left row by left row; no property below depends on their
    order. *)
Definition merge {A B} (left : frame A) (right : frame B) : frame (A * B) :=
  flat_map
    (fun l =>
       map (fun r => mkRow (Country l) (data l, data r))
           (filter (fun r => cell_eqb (Country l) (Country r)) right))
    left.

(** The columns of the mortality table besides [Country]. *)
Record mortality_cols := {
  ISO3Code : cell;
  Mortality_Status_Binary : cell
}.

(** The columns of the wide health table besides [Country]. *)
Record health_cols (T : Type) := {
  ANC4 : option T;
  SBA : option T
}.
Arguments ANC4 {T} h.
Arguments SBA {T} h.

(** The merged table either carries the column [Births_2022] or, when the
    population join was skipped, lacks it. *)
Inductive merged (T : Type) :=
| With_births (df : frame (mortality_cols * health_cols T * option T))
| Without_births (df : frame (mortality_cols * health_cols T)).
Arguments With_births {T} df.
Arguments Without_births {T} df.

(** [len(merged)] *)
Definition merged_len {T} (m : merged T) : nat :=
  match m with
  | With_births df => length df
  | Without_births df => length df
  end.

Section Merge.

Context {T : Type}.

(** The three tables after standardisation and filtering, as
    [merge_datasets] names them. *)
Definition unicef_clean (unicef_data : frame (health_cols T)) :=
  fst (filter_individual_countries
         (standardize_country_names unicef_data create_country_mapping)).

Definition population_clean (population_data : frame (option T)) :=
  fst (filter_individual_countries
         (standardize_country_names population_data create_country_mapping)).

Definition mortality_clean (mortality_data : frame mortality_cols) :=
  fst (filter_individual_countries
         (standardize_country_names mortality_data create_country_mapping)).

Definition merge_datasets
    (unicef_data : frame (health_cols T))
    (population_data : frame (option T))
    (mortality_data : frame mortality_cols)
  : merged T * list msg :=
  let country_mapping := create_country_mapping in
  let unicef_std := standardize_country_names unicef_data country_mapping in
  let population_std :=
    standardize_country_names population_data country_mapping in
  let mortality_std :=
    standardize_country_names mortality_data country_mapping in
  let '(unicef_clean, out1) := filter_individual_countries unicef_std in
  let '(population_clean, out2) :=
    filter_individual_countries population_std in
  let '(mortality_clean, out3) :=
    filter_individual_countries mortality_std in
  let out :=
    [Merging_datasets; Creating_country_mapping] ++ out1 ++ out2 ++ out3
    ++ [After_filtering (length unicef_clean) (length population_clean)
                        (length mortality_clean)] in
  let merged1 := merge mortality_clean unicef_clean in
  let out := out ++ [After_merging_unicef (length merged1)] in
  if (0 <? length population_clean)%nat then
    let merged2 := merge merged1 population_clean in
    (With_births merged2,
     out ++ [After_merging_population (length merged2)])
  else
    (Without_births merged1, out ++ [Warning_no_population_data]).

End Merge.

(** ** The population cleaner: [clean_population_data] *)

(** An entry of a sheet as [read_excel] delivers it. *)
Inductive value (T : Type) :=
| VNaN
| VStr (s : pystr)
| VNum (x : T).
Arguments VNaN {T}.
Arguments VStr {T} s.
Arguments VNum {T} x.

(** A sheet: its column labels, taken to be distinct, and its rows, each
    with one entry per column. *)
Record sheet (T : Type) := {
  columns : list pystr;
  rows : list (list (value T))
}.
Arguments columns {T} s.
Arguments rows {T} s.

Section Population.

Context {T : Type} `{Num T}.

(** [pd.to_numeric] on a string, and [str] on a number: library
    conversions the cleaner relies on. *)
Variable to_numeric_str : pystr -> option T.
Variable str_of_num : T -> pystr.

(** The position of the first column whose label satisfies [p]. *)
Fixpoint find_col (p : pystr -> bool) (cols : list pystr) : option nat :=
  match cols with
  | [] => None
  | c :: cols' =>
      if p c then Some 0%nat
      else option_map S (find_col p cols')
  end.

(** [any(term in str(col).lower() for term in terms)] *)
Definition any_term_in (terms : list pystr) (col : pystr) : bool :=
  existsb (fun term => PyStr.contains term (PyStr.lower col)) terms.

Definition entry (i : nat) (r : list (value T)) : value T :=
  nth i r VNaN.

(** [df['Year'] == 2022] on one entry. *)
Definition is_2022 (v : value T) : bool :=
  match v with
  | VNum x => eqb x (of_Z 2022)
  | _ => false
  end.

(** [pd.to_numeric(..., errors='coerce')] on one entry. *)
Definition to_numeric (v : value T) : option T :=
  match v with
  | VNaN => None
  | VStr s => to_numeric_str s
  | VNum x => Some x
  end.

(** An entry of the name column as a cell of the [Country] column. *)
Definition name_cell (v : value T) : cell :=
  match v with
  | VNaN => NaN
  | VStr s => Str s
  | VNum x => Str (str_of_num x)
  end.

Definition notna {A} (o : option A) : bool :=
  match o with Some _ => true | None => false end.

(** The first loop of the cleaner, with its fallback to the first
    column; [None] when the sheet has no column at all. *)
Definition find_country_col (cols : list pystr) : option nat :=
  match find_col (any_term_in [u "country"; u "region"; u "area"]) cols with
  | Some i => Some i
  | None => match cols with [] => None | _ :: _ => Some 0%nat end
  end.

(** The two loops that look for the births column. *)
Definition find_births_col (cols : list pystr) : option nat :=
  match find_col (fun col => PyStr.contains (u "births") (PyStr.lower col))
                 cols with
  | Some i => Some i
  | None => find_col (any_term_in [u "birth"; u "natality"]) cols
  end.

(** [clean_population_data], on the sheet 'Projections' it reads. *)
Definition clean_population_data (df : sheet T)
  : outcome (frame (option T)) * list msg :=
  let out := [Cleaning_population_data] in
  match find_country_col (columns df) with
  | None => (Raise IndexError, out)
  | Some country_col =>
      match find_col (PyStr.eqb (u "Year")) (columns df) with
      | None => (Raise (KeyError (u "Year")), out)
      | Some year_col =>
          let df_2022 :=
            filter (fun r => is_2022 (entry year_col r)) (rows df) in
          match find_births_col (columns df) with
          | Some births_col =>
              let pop_data :=
                map (fun r => mkRow (name_cell (entry country_col r))
                                    (to_numeric (entry births_col r)))
                    df_2022 in
              let pop_data := filter (fun r => notna (data r)) pop_data in
              (Return pop_data,
               out ++ [Population_data_cleaned (length pop_data)])
          | None =>
              (Return [], out ++ [Warning_no_births_column])
          end
      end
  end.

End Population.

(** ** The health-indicator cleaner: [clean_unicef_data] up to [df_recent] *)

(** The simplified indicator names, ['ANC4'] and ['SBA']. *)
Inductive indicator :=
| IndANC4
| IndSBA.

Definition indicator_eqb (a b : indicator) : bool :=
  match a, b with
  | IndANC4, IndANC4 | IndSBA, IndSBA => true
  | _, _ => false
  end.

(** A row of the sheet 'Unicef data', with the columns the cleaner uses. *)
Record unicef_row (V : Type) := {
  Geographic_area : cell;
  Indicator : cell;
  TIME_PERIOD : Z;
  OBS_VALUE : V
}.
Arguments Geographic_area {V} _.
Arguments Indicator {V} _.
Arguments TIME_PERIOD {V} _.
Arguments OBS_VALUE {V} _.

Section Unicef.

Context {V : Type}.

(** A row together with its column [Indicator_Clean]. *)
Definition labelled : Type := unicef_row V * indicator.

Definition year (x : labelled) : Z := TIME_PERIOD (fst x).

(** [df.sort_values('TIME_PERIOD')].  The call leaves [kind] at its
    default, ['quicksort'], which is not a stable sort: how rows of one
    year are ordered among themselves is the sorting routine's choice.
    The routine is therefore a parameter of the embedding. *)
Variable sort_values : list labelled -> list labelled.

(** [df['TIME_PERIOD'].between(2018, 2022)] *)
Definition between_2018_2022 (r : unicef_row V) : bool :=
  ((2018 <=? TIME_PERIOD r) && (TIME_PERIOD r <=? 2022))%Z.

(** [str.contains('Antenatal care 4+', na=False)]: the argument is read
    as a regular expression, in which [4+] stands for one or more [4];
    the search succeeds exactly on the texts containing
    'Antenatal care 4'. *)
Definition anc4_mask (r : unicef_row V) : bool :=
  match Indicator r with
  | NaN => false
  | Str s => PyStr.contains (u "Antenatal care 4") s
  end.

Definition sba_mask (r : unicef_row V) : bool :=
  match Indicator r with
  | NaN => false
  | Str s => PyStr.contains (u "Skilled birth attendant") s
  end.

(** ['ANC4' if 'Antenatal care 4+' in str(x) else 'SBA'] *)
Definition Indicator_Clean (r : unicef_row V) : indicator :=
  if PyStr.contains (u "Antenatal care 4+") (astype_str (Indicator r))
  then IndANC4 else IndSBA.

(** The key of [groupby(['Geographic area', 'Indicator_Clean'])]; a row
    with a missing key belongs to no group. *)
Definition group_key (x : labelled) : option (pystr * indicator) :=
  match Geographic_area (fst x) with
  | NaN => None
  | Str c => Some (c, snd x)
  end.

Definition key_eqb (k k' : pystr * indicator) : bool :=
  PyStr.eqb (fst k) (fst k') && indicator_eqb (snd k) (snd k').

Definition in_group (k : pystr * indicator) (x : labelled) : bool :=
  match group_key x with
  | Some k' => key_eqb k k'
  | None => false
  end.

(** [groupby(...).tail(1)]: the rows that are the last of their group,
    in the order of the frame. *)
Fixpoint groupby_tail1 (l : list labelled) : list labelled :=
  match l with
  | [] => []
  | x :: l' =>
      match group_key x with
      | Some k =>
          if existsb (in_group k) l' then groupby_tail1 l'
          else x :: groupby_tail1 l'
      | None => groupby_tail1 l'
      end
  end.

(** The frame the reduction starts from: rows of the year range whose
    indicator is one of the two, with their simplified indicator name. *)
Definition df_labelled (df : list (unicef_row V)) : list labelled :=
  map (fun r => (r, Indicator_Clean r))
      (filter (fun r => anc4_mask r || sba_mask r)
              (filter between_2018_2022 df)).

(** [df_recent] of [clean_unicef_data]. *)
Definition df_recent (df : list (unicef_row V)) : list labelled :=
  groupby_tail1 (sort_values (df_labelled df)).

End Unicef.

(** Insertion of a row into a frame sorted by year, before the rows of
    the same year. *)
Fixpoint insert_by_year {V} (x : @labelled V) (l : list (@labelled V))
  : list (@labelled V) :=
  match l with
  | [] => [x]
  | y :: l' =>
      if (year x <=? year y)%Z then x :: l
      else y :: insert_by_year x l'
  end.

(** A stable sort by [TIME_PERIOD]: rows of one year keep their input
    order. *)
Definition stable_sort_values {V} (l : list (@labelled V))
  : list (@labelled V) :=
  fold_right insert_by_year [] l.

(** The order [sort_values] leaves a frame of at most four rows in where
    NumPy sorts with its vectorised kernels, as it does for 64-bit keys
    on x86-64 processors with AVX2 or AVX-512.  [np.argsort] with
    [kind='quicksort'] then loads the rows into the lanes of one
    register, pads the free lanes with the largest key, and runs the
    network of compare-exchanges (0,1) (2,3), (0,3) (1,2), (0,1) (2,3).
    A compare-exchange swaps two lanes only when the lower lane holds the
    strictly larger key; a row of an earlier year that crosses two rows of
    one year can thus change their order. *)
Definition lane (V : Type) : Type := option (@labelled V).

(** The key of the first lane is strictly larger; the padding is larger
    than every year. *)
Definition larger {V} (x y : lane V) : bool :=
  match x, y with
  | Some x, Some y => (year y <? year x)%Z
  | None, Some _ => true
  | _, _ => false
  end.

Definition cmp_merge {V} (x y : lane V) : lane V * lane V :=
  if larger x y then (y, x) else (x, y).

Definition sort_register {V} (a b c d : lane V) : list (lane V) :=
  let '(a, b) := cmp_merge a b in
  let '(c, d) := cmp_merge c d in
  let '(a, d) := cmp_merge a d in
  let '(b, c) := cmp_merge b c in
  let '(a, b) := cmp_merge a b in
  let '(c, d) := cmp_merge c d in
  [a; b; c; d].

(** The masked store: the rows, without the padding. *)
Definition stored {V} (l : list (lane V)) : list (@labelled V) :=
  flat_map (fun x => match x with Some r => [r] | None => [] end) l.

(** Frames of more than four rows are sorted by wider networks and by
    partitioning, which are not followed here; the definition falls back
    on the stable sort for them. *)
Definition vectorised_sort_values {V} (l : list (@labelled V))
  : list (@labelled V) :=
  match l with
  | [] => []
  | [a] => [a]
  | [a; b] => stored (sort_register (Some a) (Some b) None None)
  | [a; b; c] => stored (sort_register (Some a) (Some b) (Some c) None)
  | [a; b; c; d] =>
      stored (sort_register (Some a) (Some b) (Some c) (Some d))
  | _ => stable_sort_values l
  end.

(** ** The aggregator: [calculate_population_weighted_coverage] *)

(** The dictionary the function returns; [None] in a numeric field is
    [np.nan]. *)
Record summary (T : Type) := {
  track_status : pystr;
  s_indicator : indicator;
  n_countries : nat;
  total_births : option T;
  weighted_coverage : option T;
  min_coverage : option T;
  max_coverage : option T;
  median_coverage : option T;
  countries : list cell
}.
Arguments track_status {T} s.
Arguments s_indicator {T} s.
Arguments n_countries {T} s.
Arguments total_births {T} s.
Arguments weighted_coverage {T} s.
Arguments min_coverage {T} s.
Arguments max_coverage {T} s.
Arguments median_coverage {T} s.
Arguments countries {T} s.

Section Coverage.

Context {T : Type} `{Num T}.

(** A row of the merged table. *)
Definition merged_row : Type := row (mortality_cols * health_cols T * option T).

Definition status_of (r : merged_row) : cell :=
  Mortality_Status_Binary (fst (fst (data r))).

(** [df[indicator]] on one row. *)
Definition indicator_of (ind : indicator) (r : merged_row) : option T :=
  match ind with
  | IndANC4 => ANC4 (snd (fst (data r)))
  | IndSBA => SBA (snd (fst (data r)))
  end.

Definition births_of (r : merged_row) : option T := snd (data r).

(** The rows the function keeps. *)
Definition subset (df : list merged_row) (ind : indicator) (status : pystr)
  : list merged_row :=
  filter (fun r => cell_eqb (status_of r) (Str status)
                   && notna (indicator_of ind r)
                   && notna (births_of r)) df.

(** The entries of a column of [subset]; none of them is missing. *)
Fixpoint present (l : list (option T)) : list T :=
  match l with
  | [] => []
  | Some x :: l' => x :: present l'
  | None :: l' => present l'
  end.

(** Summation in row order. *)
Definition sum (l : list T) : T := fold_left add l zero.

Fixpoint multiply (a w : list T) : list T :=
  match a, w with
  | x :: a', y :: w' => mul x y :: multiply a' w'
  | _, _ => []
  end.

(** [np.average(a, weights=w)]: the weights are summed first, a zero sum
    raises, otherwise the products are summed and divided. *)
Definition average (a w : list T) : outcome T :=
  let scl := sum w in
  if eqb scl zero then Raise ZeroDivisionError
  else Return (div (sum (multiply a w)) scl).

Definition min2 (x y : T) : T := if leb x y then x else y.
Definition max2 (x y : T) : T := if leb x y then y else x.

Definition minimum (l : list T) : option T :=
  match l with
  | [] => None
  | x :: l' => Some (fold_left min2 l' x)
  end.

Definition maximum (l : list T) : option T :=
  match l with
  | [] => None
  | x :: l' => Some (fold_left max2 l' x)
  end.

Fixpoint insert (x : T) (l : list T) : list T :=
  match l with
  | [] => [x]
  | y :: l' => if leb x y then x :: l else y :: insert x l'
  end.

Definition sorted (l : list T) : list T := fold_right insert [] l.

(** [Series.median()]: the middle of the sorted values, or the mean of
    the two middle ones. *)
Definition median (l : list T) : option T :=
  let s := sorted l in
  let n := length s in
  match n with
  | O => None
  | _ =>
      if Nat.even n then
        match nth_error s (n / 2 - 1), nth_error s (n / 2) with
        | Some a, Some b => Some (div (add a b) (of_Z 2))
        | _, _ => None
        end
      else nth_error s (n / 2)
  end.

(** [calculate_population_weighted_coverage] on a table that has the
    columns [Mortality_Status_Binary], [ANC4], [SBA] and [Births_2022].
    The table without [Births_2022] is covered by [calculate_on_merged]
    below. *)
Definition calculate_population_weighted_coverage
    (df : list merged_row) (ind : indicator) (status : pystr)
  : outcome (summary T) :=
  let subset := subset df ind status in
  if (length subset =? 0)%nat then
    Return {| track_status := status;
              s_indicator := ind;
              n_countries := 0;
              total_births := Some zero;
              weighted_coverage := None;
              min_coverage := None;
              max_coverage := None;
              median_coverage := None;
              countries := [] |}
  else
    let weights := present (map births_of subset) in
    let coverage_values := present (map (indicator_of ind) subset) in
    let abs_weights := map absv weights in
    match average coverage_values abs_weights with
    | Raise e => Raise e
    | Return weighted_coverage =>
        Return {| track_status := status;
                  s_indicator := ind;
                  n_countries := length subset;
                  total_births := Some (sum weights);
                  weighted_coverage := Some weighted_coverage;
                  min_coverage := minimum coverage_values;
                  max_coverage := maximum coverage_values;
                  median_coverage := median coverage_values;
                  countries := map Country subset |}
    end.

End Coverage.

(** * Properties *)

(** ** Strings *)

Module PyStrFacts.

Lemma eqb_spec (a b : pystr) : reflect (a = b) (PyStr.eqb a b).
Proof.
  revert b; induction a as [|x a IH]; intros [|y b]; simpl;
    try (constructor; congruence).
  destruct (N.eqb_spec x y) as [->|Hxy]; simpl.
  - destruct (IH b) as [->|Hab]; constructor; congruence.
  - constructor; congruence.
Qed.

Lemma eqb_refl (a : pystr) : PyStr.eqb a a = true.
Proof. destruct (eqb_spec a a); congruence. Qed.

Lemma eqb_eq (a b : pystr) : PyStr.eqb a b = true <-> a = b.
Proof. destruct (eqb_spec a b); split; congruence. Qed.

Lemma eqb_neq (a b : pystr) : PyStr.eqb a b = false <-> a <> b.
Proof. destruct (eqb_spec a b); split; congruence. Qed.

Lemma eqb_sym (a b : pystr) : PyStr.eqb a b = PyStr.eqb b a.
Proof.
  destruct (eqb_spec a b) as [->|Hab]; [now rewrite eqb_refl|].
  symmetry; apply eqb_neq; congruence.
Qed.

Lemma lstrip_head (s : pystr) :
  match PyStr.lstrip s with
  | [] => True
  | c :: _ => PyStr.isspace c = false
  end.
Proof.
  induction s as [|c s IH]; simpl; [exact I|].
  destruct (PyStr.isspace c) eqn:E; [exact IH|exact E].
Qed.

Lemma lstrip_fixed (c : N) (s : pystr) :
  PyStr.isspace c = false -> PyStr.lstrip (c :: s) = c :: s.
Proof. intros E; simpl; now rewrite E. Qed.

Lemma rstrip_cons_nonspace (c : N) (s : pystr) :
  PyStr.isspace c = false -> PyStr.rstrip (c :: s) = c :: PyStr.rstrip s.
Proof. intros E; simpl; rewrite E; now destruct (PyStr.rstrip s). Qed.

Lemma rstrip_idem (s : pystr) :
  PyStr.rstrip (PyStr.rstrip s) = PyStr.rstrip s.
Proof.
  induction s as [|c s IH]; simpl; [reflexivity|].
  destruct (PyStr.rstrip s) as [|d r] eqn:E.
  - destruct (PyStr.isspace c) eqn:Ec; simpl; [reflexivity|now rewrite Ec].
  - change (PyStr.rstrip (c :: d :: r) = c :: d :: r).
    simpl. simpl in IH. destruct (PyStr.rstrip r) as [|e r'] eqn:Er.
    + destruct (PyStr.isspace d) eqn:Ed; [discriminate IH|].
      now inversion IH.
    + now inversion IH.
Qed.

(** Trimming twice is trimming once. *)
Lemma strip_idem (s : pystr) : PyStr.strip (PyStr.strip s) = PyStr.strip s.
Proof.
  unfold PyStr.strip.
  pose proof (lstrip_head s) as H.
  destruct (PyStr.lstrip s) as [|c s'] eqn:E; [reflexivity|].
  rewrite (rstrip_cons_nonspace c s' H), (lstrip_fixed c _ H).
  rewrite (rstrip_cons_nonspace c _ H). now rewrite rstrip_idem.
Qed.

End PyStrFacts.

Lemma cell_eqb_spec (a b : cell) : reflect (a = b) (cell_eqb a b).
Proof.
  destruct a as [|s], b as [|s']; simpl; try (constructor; congruence).
  destruct (PyStrFacts.eqb_spec s s'); constructor; congruence.
Qed.

Lemma cell_eqb_refl (a : cell) : cell_eqb a a = true.
Proof. destruct (cell_eqb_spec a a); congruence. Qed.

Lemma cell_eqb_sym (a b : cell) : cell_eqb a b = cell_eqb b a.
Proof.
  destruct (cell_eqb_spec a b) as [->|Hab]; [now rewrite cell_eqb_refl|].
  destruct (cell_eqb_spec b a); congruence.
Qed.

(** ** The mortality classifier *)

(** C7.  [classify_status] sends a missing status to a missing label, a
    text that lower-cases to "achieved" or to "on-track" to [on-track], and
    every other text to [off-track]; "acceleration needed" and
    "Some Other Category" are among the latter. *)
Theorem classify_status_spec :
  classify_status NaN = NaN
  /\ (forall s,
        PyStr.lower s = u "achieved" \/ PyStr.lower s = u "on-track" ->
        classify_status (Str s) = Str on_track)
  /\ (forall s,
        PyStr.lower s <> u "achieved" -> PyStr.lower s <> u "on-track" ->
        classify_status (Str s) = Str off_track)
  /\ classify_status (Str (u "acceleration needed")) = Str off_track
  /\ classify_status (Str (u "Some Other Category")) = Str off_track.
Proof.
  split; [reflexivity|].
  split; [|split; [|split; reflexivity]].
  - intros s [E|E]; unfold classify_status; simpl isna; simpl astype_str;
      cbv zeta iota; rewrite E; reflexivity.
  - intros s H1 H2. unfold classify_status. simpl isna. simpl astype_str.
    cbv zeta iota.
    assert (E : existsb (PyStr.eqb (PyStr.lower s))
                        [u "achieved"; u "on-track"] = false).
    { cbn [existsb]. apply PyStrFacts.eqb_neq in H1, H2.
      now rewrite H1, H2. }
    rewrite E. now destruct (PyStr.contains _ _).
Qed.

Lemma classify_status_witness :
  classify_status (Str (u "On-Track")) = Str on_track
  /\ classify_status (Str (u "Achieved ")) = Str off_track.
Proof.
  split.
  - apply (proj1 (proj2 classify_status_spec)). right. reflexivity.
  - apply (proj1 (proj2 (proj2 classify_status_spec))); discriminate.
Defined.

(** ** The name normaliser *)

Lemma lookup_In (d : dict) (k v : pystr) :
  lookup d k = Some v -> In (k, v) d.
Proof.
  induction d as [|[k' v'] d IH]; simpl; [discriminate|].
  destruct (PyStrFacts.eqb_spec k' k) as [->|Hk].
  - intros [= ->]. now left.
  - intros E. right. now apply IH.
Qed.

(** A target of the mapping carries no outer whitespace and is either no
    key of the mapping or a key mapped to itself. *)
Definition canonical_target (d : dict) (v : pystr) : bool :=
  PyStr.eqb (PyStr.strip v) v
  && match lookup d v with
     | None => true
     | Some v' => PyStr.eqb v' v
     end.

Lemma shipped_targets_canonical :
  forallb (fun kv => canonical_target create_country_mapping (snd kv))
          create_country_mapping = true.
Proof. vm_compute. reflexivity. Qed.

Lemma normalize_key (x v : pystr) :
  lookup create_country_mapping x = Some v ->
  normalize x create_country_mapping = v
  /\ normalize v create_country_mapping = v.
Proof.
  intros E.
  pose proof shipped_targets_canonical as F.
  rewrite forallb_forall in F.
  specialize (F (x, v) (lookup_In _ _ _ E)). simpl in F.
  unfold canonical_target in F. apply andb_true_iff in F as [Fs Fl].
  apply PyStrFacts.eqb_eq in Fs.
  unfold normalize, standardize_name, replace, astype_str.
  rewrite E. split; [exact Fs|].
  destruct (lookup create_country_mapping v) as [v'|]; [|exact Fs].
  apply PyStrFacts.eqb_eq in Fl. now subst v'.
Qed.

Lemma normalize_not_key (x : pystr) (M : dict) :
  lookup M x = None -> normalize x M = PyStr.strip x.
Proof.
  intros E. unfold normalize, standardize_name, replace. now rewrite E.
Qed.

(** C5, as the code has it.  With the shipped mapping, normalising twice
    equals normalising once exactly for the names that are a key of the
    mapping, or whose trimmed form is no key, or whose trimmed form is a
    key mapped to itself. *)
Theorem normalize_idempotent_iff (x : pystr) :
  normalize (normalize x create_country_mapping) create_country_mapping
  = normalize x create_country_mapping
  <-> (lookup create_country_mapping x <> None
       \/ lookup create_country_mapping (PyStr.strip x) = None
       \/ lookup create_country_mapping (PyStr.strip x)
          = Some (PyStr.strip x)).
Proof.
  destruct (lookup create_country_mapping x) as [v|] eqn:Ex.
  - destruct (normalize_key _ _ Ex) as [-> Ev].
    split; [intros _; left; discriminate|intros _; exact Ev].
  - rewrite (normalize_not_key x _ Ex).
    destruct (lookup create_country_mapping (PyStr.strip x)) as [w|] eqn:Ey.
    + destruct (normalize_key _ _ Ey) as [-> _]. split.
      * intros ->. right; right; reflexivity.
      * intros [H|[H|H]]; congruence.
    + rewrite (normalize_not_key _ _ Ey), PyStrFacts.strip_idem.
      split; [intros _; right; left; reflexivity|reflexivity].
Qed.

Lemma normalize_idempotent_witness :
  normalize (normalize (u " Kenya ") create_country_mapping)
            create_country_mapping
  = normalize (u " Kenya ") create_country_mapping.
Proof.
  apply (proj2 (normalize_idempotent_iff (u " Kenya "))).
  right; left. vm_compute. reflexivity.
Defined.

(** A name that carries no outer whitespace is normalised in one pass. *)
Corollary normalize_idempotent_trimmed (x : pystr) :
  PyStr.strip x = x ->
  normalize (normalize x create_country_mapping) create_country_mapping
  = normalize x create_country_mapping.
Proof.
  intros E. destruct (lookup create_country_mapping x) as [v|] eqn:Ex.
  - destruct (normalize_key _ _ Ex) as [-> Ev]. exact Ev.
  - rewrite (normalize_not_key x _ Ex), E. now rewrite normalize_not_key.
Qed.

(** C5, as the specification states it, fails: the padded key " USA" is
    trimmed to the key "USA" by the first pass and mapped to
    "United States" only by the second. *)
Lemma normalize_not_idempotent :
  normalize (u " USA") create_country_mapping = u "USA"
  /\ normalize (normalize (u " USA") create_country_mapping)
               create_country_mapping = u "United States"
  /\ ~ (forall x,
          normalize (normalize x create_country_mapping)
                    create_country_mapping
          = normalize x create_country_mapping).
Proof.
  split; [reflexivity|]. split; [reflexivity|].
  intros H. specialize (H (u " USA")). vm_compute in H. discriminate H.
Qed.

(** [standardize_country_names] applies the normaliser to the names of a
    table of strings. *)
Lemma standardize_name_Str (M : dict) (x : pystr) :
  standardize_name M (Str x) = Str (normalize x M).
Proof. reflexivity. Qed.

Lemma standardize_length {A} (df : frame A) (M : dict) :
  length (standardize_country_names df M) = length df.
Proof. apply length_map. Qed.

(** ** The inner join *)

Lemma filter_none {X} (f : X -> bool) (l : list X) :
  (forall x, In x l -> f x = false) -> filter f l = [].
Proof.
  induction l as [|x l IH]; intros H; [reflexivity|]. simpl.
  rewrite (H x (or_introl eq_refl)). apply IH.
  intros y Hy. apply H. now right.
Qed.

Section MergeFacts.

Context {A B : Type}.

Definition keys {X} (df : frame X) : list cell := map Country df.

(** The rows of [df] whose key is [k]. *)
Definition matching {X} (k : cell) (df : frame X) : frame X :=
  filter (fun r => cell_eqb k (Country r)) df.

Lemma merge_cons (l : row A) (left : frame A) (right : frame B) :
  merge (l :: left) right
  = map (fun r => mkRow (Country l) (data l, data r))
        (matching (Country l) right)
    ++ merge left right.
Proof. reflexivity. Qed.

Lemma in_merge (x : row (A * B)) (left : frame A) (right : frame B) :
  In x (merge left right) <->
  exists l r, In l left /\ In r right /\ Country l = Country r
              /\ x = mkRow (Country l) (data l, data r).
Proof.
  unfold merge. rewrite in_flat_map. split.
  - intros (l & Hl & Hx). apply in_map_iff in Hx as (r & <- & Hr).
    apply filter_In in Hr as [Hr E].
    destruct (cell_eqb_spec (Country l) (Country r)); [|discriminate].
    now exists l, r.
  - intros (l & r & Hl & Hr & E & ->). exists l. split; [exact Hl|].
    apply in_map_iff. exists r. split; [reflexivity|].
    apply filter_In. split; [exact Hr|].
    rewrite E. apply cell_eqb_refl.
Qed.

Lemma matching_length_le_1 {X} (k : cell) (df : frame X) :
  NoDup (keys df) -> length (matching k df) <= 1.
Proof.
  induction df as [|r df IH]; simpl; [lia|].
  intros Hnd. inversion Hnd as [|? ? Hnotin Hnd']; subst.
  destruct (cell_eqb_spec k (Country r)) as [->|Hk]; [|now apply IH].
  simpl. enough (E : matching (Country r) df = []) by (rewrite E; simpl; lia).
  apply filter_none. intros z Hz.
  destruct (cell_eqb_spec (Country r) (Country z)) as [E|]; [|reflexivity].
  exfalso. apply Hnotin. rewrite E. unfold keys. now apply in_map.
Qed.

(** X6.  A join has at most as many rows as there are pairs of a left
    and a right row, whatever the names in the two tables. *)
Lemma merge_length_le_mul (left : frame A) (right : frame B) :
  length (merge left right) <= length left * length right.
Proof.
  induction left as [|l left IH]; [simpl; lia|].
  rewrite merge_cons, length_app, length_map. simpl.
  pose proof (filter_length_le (fun r => cell_eqb (Country l) (Country r))
                               right).
  unfold matching. lia.
Qed.

(** With distinct keys on the right, every left row finds at most one
    partner. *)
Lemma merge_length_le_left (left : frame A) (right : frame B) :
  NoDup (keys right) -> length (merge left right) <= length left.
Proof.
  intros Hnd. induction left as [|l left IH]; [simpl; lia|].
  rewrite merge_cons, length_app, length_map. simpl.
  pose proof (matching_length_le_1 (Country l) right Hnd). lia.
Qed.

Lemma merge_nil_r (left : frame A) : merge left (@nil (row B)) = [].
Proof. induction left; simpl; auto. Qed.

End MergeFacts.

Lemma merge_length_cons_r {A B} (left : frame A) (r : row B)
      (right : frame B) :
  length (merge left (r :: right))
  = length (matching (Country r) left) + length (merge left right).
Proof.
  induction left as [|l left IH]; [reflexivity|].
  rewrite !merge_cons, !length_app, !length_map, IH.
  simpl. rewrite (cell_eqb_sym (Country r) (Country l)).
  destruct (cell_eqb (Country l) (Country r)); simpl; lia.
Qed.

(** The number of joined rows does not depend on the side. *)
Lemma merge_length_sym {A B} (left : frame A) (right : frame B) :
  length (merge left right) = length (merge right left).
Proof.
  induction right as [|r right IH].
  - now rewrite merge_nil_r.
  - rewrite merge_length_cons_r, IH, merge_cons, length_app, length_map.
    reflexivity.
Qed.

Lemma merge_length_le_right {A B} (left : frame A) (right : frame B) :
  NoDup (keys left) -> length (merge left right) <= length right.
Proof.
  intros Hnd. rewrite merge_length_sym. now apply merge_length_le_left.
Qed.

(** With distinct keys on both sides the join has distinct keys. *)
Lemma merge_keys_NoDup {A B} (left : frame A) (right : frame B) :
  NoDup (keys left) -> NoDup (keys right) -> NoDup (keys (merge left right)).
Proof.
  intros Hl Hr. induction left as [|l left IH]; [constructor|].
  inversion Hl as [|? ? Hnotin Hl']; subst.
  rewrite merge_cons. unfold keys. rewrite map_app, map_map. simpl.
  pose proof (matching_length_le_1 (Country l) right Hr) as Hm.
  destruct (matching (Country l) right) as [|r [|r' m]]; simpl in *;
    [now apply IH| |lia].
  constructor; [|now apply IH].
  intros Hin. apply in_map_iff in Hin as (x & Ex & Hx).
  apply in_merge in Hx as (l' & r' & Hl'' & _ & _ & ->). simpl in Ex.
  apply Hnotin. rewrite <- Ex. unfold keys. now apply in_map.
Qed.

(** What [merge_datasets] returns, in terms of the three cleaned tables. *)
Lemma merge_datasets_result {T}
      (U : frame (health_cols T)) (P : frame (option T))
      (M : frame mortality_cols) :
  fst (merge_datasets U P M)
  = if (0 <? length (population_clean P))%nat
    then With_births (merge (merge (mortality_clean M) (unicef_clean U))
                            (population_clean P))
    else Without_births (merge (mortality_clean M) (unicef_clean U)).
Proof.
  unfold merge_datasets, population_clean, mortality_clean, unicef_clean,
    filter_individual_countries. cbv zeta. simpl fst.
  now destruct (0 <? _)%nat.
Qed.

(** ** Row counts of [merge_datasets] *)

(** C2, as the code has it.  When the country names of each cleaned table
    are pairwise distinct, each of the two joins yields at most as many
    rows as the smaller of its inputs, and, the cleaned population table
    being non-empty, the merged table has at most as many rows as the
    smallest of the three cleaned tables. *)
Theorem merge_row_count_distinct_names {T}
    (U : frame (health_cols T)) (P : frame (option T))
    (M : frame mortality_cols) :
  NoDup (keys (unicef_clean U)) ->
  NoDup (keys (population_clean P)) ->
  NoDup (keys (mortality_clean M)) ->
  let joined := merge (mortality_clean M) (unicef_clean U) in
  length joined
    <= Nat.min (length (mortality_clean M)) (length (unicef_clean U))
  /\ length (merge joined (population_clean P))
     <= Nat.min (length joined) (length (population_clean P))
  /\ (population_clean P <> [] ->
      merged_len (fst (merge_datasets U P M))
      <= Nat.min (length (mortality_clean M))
                 (Nat.min (length (unicef_clean U))
                          (length (population_clean P)))).
Proof.
  intros HU HP HM joined.
  assert (H1 : length joined
               <= Nat.min (length (mortality_clean M))
                          (length (unicef_clean U))).
  { apply Nat.min_glb;
      [now apply merge_length_le_left|now apply merge_length_le_right]. }
  assert (H2 : length (merge joined (population_clean P))
               <= Nat.min (length joined) (length (population_clean P))).
  { apply Nat.min_glb; [now apply merge_length_le_left|].
    apply merge_length_le_right. now apply merge_keys_NoDup. }
  split; [exact H1|]. split; [exact H2|].
  intros Hne. rewrite merge_datasets_result.
  destruct (population_clean P) as [|p pc] eqn:E; [congruence|].
  simpl Nat.ltb. cbv iota. simpl merged_len. fold joined. lia.
Qed.

Ltac nodup_cells :=
  repeat (constructor; [simpl; intuition discriminate|]); constructor.

Definition no_health : health_cols Q := {| ANC4 := None; SBA := None |}.

Definition unknown_status : mortality_cols :=
  {| ISO3Code := NaN; Mortality_Status_Binary := NaN |}.

Lemma merge_row_count_witness :
  let U := [mkRow (Str (u "Kenya")) no_health;
            mkRow (Str (u "Burma")) no_health] in
  let P := [mkRow (Str (u "Burma")) (Some 7%Q)] in
  let M := [mkRow (Str (u "Myanmar")) unknown_status;
            mkRow (Str (u "Kenya")) unknown_status] in
  merged_len (fst (merge_datasets U P M)) <= 1.
Proof.
  intros U P M.
  refine (proj2 (proj2 (merge_row_count_distinct_names U P M _ _ _)) _).
  - vm_compute. nodup_cells.
  - vm_compute. nodup_cells.
  - vm_compute. nodup_cells.
  - vm_compute. discriminate.
Defined.

(** C2, as the specification states it, fails: two spellings of one
    country in each table give four rows after the first join and eight
    after the second, from tables of two rows each. *)
Lemma merge_row_count_counterexample :
  let U := [mkRow (Str (u "Myanmar")) no_health;
            mkRow (Str (u "Burma")) no_health] in
  let P := [mkRow (Str (u "Myanmar")) (Some 7%Q);
            mkRow (Str (u "Burma")) (Some 7%Q)] in
  let M := [mkRow (Str (u "Myanmar")) unknown_status;
            mkRow (Str (u "Burma")) unknown_status] in
  length (mortality_clean M) = 2
  /\ length (unicef_clean U) = 2
  /\ length (population_clean P) = 2
  /\ length (merge (mortality_clean M) (unicef_clean U)) = 4
  /\ merged_len (fst (merge_datasets U P M)) = 8
  /\ ~ (merged_len (fst (merge_datasets U P M))
        <= Nat.min (length (mortality_clean M))
                   (Nat.min (length (unicef_clean U))
                            (length (population_clean P)))).
Proof.
  vm_compute. repeat (split; [reflexivity|]). lia.
Qed.

(** ** A missing births column *)

Lemma find_col_In (p : pystr -> bool) (cols : list pystr) (c : pystr) :
  In c cols -> p c = true -> exists i, find_col p cols = Some i.
Proof.
  induction cols as [|c' cols IH]; simpl; [intros []|].
  intros [->|Hin] Hp.
  - rewrite Hp. now exists 0.
  - destruct (p c'); [now exists 0|].
    destruct (IH Hin Hp) as [i ->]. now exists (S i).
Qed.

(** C6, as the code has it.  On a sheet with a column [Year] and no column
    whose label contains "births", "birth" or "natality", the population
    cleaner prints its warning and returns the empty table; given that
    table, [merge_datasets] prints a warning, skips the population join and
    returns the join of the mortality and health tables, without the
    column [Births_2022]. *)
Theorem no_births_column_skips_population_join {T} `{Num T}
    (to_numeric_str : pystr -> option T) (str_of_num : T -> pystr)
    (df : sheet T) (U : frame (health_cols T)) (M : frame mortality_cols) :
  In (u "Year") (columns df) ->
  find_births_col (columns df) = None ->
  clean_population_data to_numeric_str str_of_num df
  = (Return [], [Cleaning_population_data; Warning_no_births_column])
  /\ fst (merge_datasets U [] M)
     = Without_births (merge (mortality_clean M) (unicef_clean U))
  /\ In Warning_no_population_data (snd (merge_datasets U [] M)).
Proof.
  intros HY HB. split; [|split].
  - unfold clean_population_data.
    destruct (find_col_In (PyStr.eqb (u "Year")) _ _ HY
                          (PyStrFacts.eqb_refl _)) as [i Ei].
    assert (Ec : exists j, find_country_col (columns df) = Some j).
    { unfold find_country_col.
      destruct (find_col (any_term_in _) (columns df)) as [j|];
        [now exists j|].
      destruct (columns df); [destruct HY|now exists 0]. }
    destruct Ec as [j ->]. rewrite Ei, HB. reflexivity.
  - rewrite merge_datasets_result. reflexivity.
  - unfold merge_datasets, filter_individual_countries. cbv zeta.
    simpl. repeat first [left; reflexivity | right].
Qed.

Definition sheet_without_births : sheet Q :=
  {| columns := [u "Region, subregion, country or area *"; u "Year";
                 u "Total Population, as of 1 July (thousands)"];
     rows := [[VStr (u "Kenya"); VNum 2022%Q; VNum 54027%Q]] |}.

Lemma no_births_column_witness :
  clean_population_data (fun _ => None) (fun _ => []) sheet_without_births
  = (Return [], [Cleaning_population_data; Warning_no_births_column])
  /\ fst (merge_datasets [mkRow (Str (u "Kenya")) no_health] []
                         [mkRow (Str (u "Kenya")) unknown_status])
     = Without_births
         (merge (mortality_clean [mkRow (Str (u "Kenya")) unknown_status])
                (unicef_clean [mkRow (Str (u "Kenya")) no_health]))
  /\ In Warning_no_population_data
        (snd (merge_datasets [mkRow (Str (u "Kenya")) no_health] []
                             [mkRow (Str (u "Kenya")) unknown_status])).
Proof.
  apply (no_births_column_skips_population_join
           (fun _ => None) (fun _ => []) sheet_without_births).
  - vm_compute. right; left; reflexivity.
  - vm_compute. reflexivity.
Defined.

(** C6, as the specification states it, fails: with the empty population
    table the cleaner returns, the merge stage yields the rows joined from
    the other two tables, here one row, not zero. *)
Lemma no_births_column_counterexample :
  clean_population_data (fun _ => None) (fun _ => []) sheet_without_births
  = (Return [], [Cleaning_population_data; Warning_no_births_column])
  /\ merged_len (fst (merge_datasets [mkRow (Str (u "Kenya")) no_health] []
                                     [mkRow (Str (u "Kenya")) unknown_status]))
     = 1
  /\ merged_len (fst (merge_datasets [mkRow (Str (u "Kenya")) no_health] []
                                     [mkRow (Str (u "Kenya")) unknown_status]))
     <> 0.
Proof. vm_compute. repeat split; discriminate. Qed.

(** ** Missing country names *)

(** [Series.astype(str)] treats a missing value differently in the pandas
    versions the project admits ([pandas>=1.3.0]).  Before pandas 3 the
    missing value of an object column becomes the string "nan", which is
    what [astype_str] does; from pandas 3 on the column is cast to the
    string dtype and the value stays missing. *)
Inductive pandas :=
| Before_3
| From_3.

(** [Series.astype(str)] on one cell, by pandas version. *)
Definition astype_str_on (p : pandas) (c : cell) : cell :=
  match p, c with
  | From_3, NaN => NaN
  | _, _ => Str (astype_str c)
  end.

(** [Series.str.strip()] on one cell. *)
Definition str_strip (c : cell) : cell :=
  match c with
  | NaN => NaN
  | Str s => Str (PyStr.strip s)
  end.

(** [standardize_country_names] on one entry of the column, by pandas
    version. *)
Definition standardize_name_on (p : pandas) (mapping : dict) (c : cell)
  : cell :=
  str_strip (astype_str_on p (replace mapping c)).

Definition standardize_country_names_on {A} (p : pandas) (df : frame A)
    (mapping : dict) : frame A :=
  map (fun r => mkRow (standardize_name_on p mapping (Country r)) (data r))
      df.

(** A table after standardisation and filtering, by pandas version. *)
Definition cleaned_on {A} (p : pandas) (df : frame A) : frame A :=
  fst (filter_individual_countries
         (standardize_country_names_on p df create_country_mapping)).

(** [merge_datasets], by pandas version. *)
Definition merge_datasets_on {T} (p : pandas)
    (unicef_data : frame (health_cols T))
    (population_data : frame (option T))
    (mortality_data : frame mortality_cols)
  : merged T * list msg :=
  let country_mapping := create_country_mapping in
  let unicef_std :=
    standardize_country_names_on p unicef_data country_mapping in
  let population_std :=
    standardize_country_names_on p population_data country_mapping in
  let mortality_std :=
    standardize_country_names_on p mortality_data country_mapping in
  let '(unicef_clean, out1) := filter_individual_countries unicef_std in
  let '(population_clean, out2) :=
    filter_individual_countries population_std in
  let '(mortality_clean, out3) :=
    filter_individual_countries mortality_std in
  let out :=
    [Merging_datasets; Creating_country_mapping] ++ out1 ++ out2 ++ out3
    ++ [After_filtering (length unicef_clean) (length population_clean)
                        (length mortality_clean)] in
  let merged1 := merge mortality_clean unicef_clean in
  let out := out ++ [After_merging_unicef (length merged1)] in
  if (0 <? length population_clean)%nat then
    let merged2 := merge merged1 population_clean in
    (With_births merged2,
     out ++ [After_merging_population (length merged2)])
  else
    (Without_births merged1, out ++ [Warning_no_population_data]).

(** Before pandas 3 these are the definitions used so far. *)
Lemma standardize_name_on_before (mapping : dict) (c : cell) :
  standardize_name_on Before_3 mapping c = standardize_name mapping c.
Proof.
  destruct c as [|s]; [reflexivity|].
  unfold standardize_name_on, standardize_name, replace.
  now destruct (lookup mapping s).
Qed.

Lemma standardize_country_names_on_before {A} (df : frame A)
      (mapping : dict) :
  standardize_country_names_on Before_3 df mapping
  = standardize_country_names df mapping.
Proof.
  unfold standardize_country_names_on, standardize_country_names.
  apply map_ext. intros r. now rewrite standardize_name_on_before.
Qed.

Lemma merge_datasets_on_before {T}
      (U : frame (health_cols T)) (P : frame (option T))
      (M : frame mortality_cols) :
  merge_datasets_on Before_3 U P M = merge_datasets U P M.
Proof.
  unfold merge_datasets_on, merge_datasets. cbv zeta.
  now rewrite !standardize_country_names_on_before.
Qed.

Lemma merge_datasets_on_result {T} (p : pandas)
      (U : frame (health_cols T)) (P : frame (option T))
      (M : frame mortality_cols) :
  fst (merge_datasets_on p U P M)
  = if (0 <? length (cleaned_on p P))%nat
    then With_births (merge (merge (cleaned_on p M) (cleaned_on p U))
                            (cleaned_on p P))
    else Without_births (merge (cleaned_on p M) (cleaned_on p U)).
Proof.
  unfold merge_datasets_on, cleaned_on, filter_individual_countries.
  cbv zeta. simpl fst. now destruct (0 <? _)%nat.
Qed.

(** The name a missing name is standardised to. *)
Definition null_name (p : pandas) : cell :=
  match p with
  | Before_3 => Str (u "nan")
  | From_3 => NaN
  end.

Lemma standardize_name_on_NaN (p : pandas) (mapping : dict) :
  standardize_name_on p mapping NaN = null_name p.
Proof. destruct p; reflexivity. Qed.

Lemma null_name_is_kept (p : pandas) :
  str_contains_regional (null_name p) = false.
Proof. destruct p; vm_compute; reflexivity. Qed.

(** A row with a missing name is in the cleaned table, under the name a
    missing name is standardised to. *)
Lemma cleaned_on_keeps_null_row {A} (p : pandas) (df : frame A)
      (r : row A) :
  In r df -> Country r = NaN ->
  In (mkRow (null_name p) (data r)) (cleaned_on p df).
Proof.
  intros Hin E. unfold cleaned_on, filter_individual_countries. simpl fst.
  apply filter_In. split.
  - unfold standardize_country_names_on. apply in_map_iff. exists r.
    split; [|exact Hin]. now rewrite E, standardize_name_on_NaN.
  - cbn [Country]. now rewrite null_name_is_kept.
Qed.

(** C10, as the code has it.  Whatever the pandas version, rows whose
    country name is missing are neither dropped nor rejected by
    [standardize_country_names]: each of them appears in its cleaned
    table, passes the aggregate filter, and is joined with the rows of the
    other tables that carry the same name, like the rows of any country.
    The name it carries is the string "nan" before pandas 3 and stays
    missing from pandas 3 on. *)
Theorem null_country_name_is_kept {T} (p : pandas)
    (U : frame (health_cols T)) (P : frame (option T))
    (M : frame mortality_cols)
    (h : row (health_cols T)) (b : row (option T)) (m : row mortality_cols) :
  In h U -> Country h = NaN ->
  In b P -> Country b = NaN ->
  In m M -> Country m = NaN ->
  (forall mapping,
     length (standardize_country_names_on p M mapping) = length M)
  /\ (forall mapping, In (mkRow (null_name p) (data m))
                         (standardize_country_names_on p M mapping))
  /\ In (mkRow (null_name p) (data h)) (cleaned_on p U)
  /\ In (mkRow (null_name p) (data b)) (cleaned_on p P)
  /\ In (mkRow (null_name p) (data m)) (cleaned_on p M)
  /\ exists df,
       fst (merge_datasets_on p U P M) = With_births df
       /\ In (mkRow (null_name p) (data m, data h, data b)) df.
Proof.
  intros Hh Eh Hb Eb Hm Em.
  pose proof (cleaned_on_keeps_null_row p U h Hh Eh) as Ch.
  pose proof (cleaned_on_keeps_null_row p P b Hb Eb) as Cb.
  pose proof (cleaned_on_keeps_null_row p M m Hm Em) as Cm.
  split; [intros; apply length_map|].
  split.
  { intros mapping. unfold standardize_country_names_on. apply in_map_iff.
    exists m. split; [|exact Hm]. now rewrite Em, standardize_name_on_NaN. }
  repeat (split; [assumption|]).
  rewrite merge_datasets_on_result.
  destruct (cleaned_on p P) as [|p0 pc] eqn:E; [destruct Cb|].
  simpl Nat.ltb. cbv iota. eexists. split; [reflexivity|].
  apply in_merge.
  exists (mkRow (null_name p) (data m, data h)), (mkRow (null_name p) (data b)).
  repeat split; [|exact Cb].
  apply in_merge.
  exists (mkRow (null_name p) (data m)), (mkRow (null_name p) (data h)).
  repeat split; assumption.
Qed.

Lemma null_country_name_witness :
  let h := mkRow NaN no_health in
  let b := mkRow NaN (Some 7%Q) in
  let m := mkRow NaN unknown_status in
  (exists df,
     fst (merge_datasets_on From_3 [h] [b] [m]) = With_births df
     /\ In (mkRow NaN (data m, data h, data b)) df)
  /\ (exists df,
        fst (merge_datasets_on Before_3 [h] [b] [m]) = With_births df
        /\ In (mkRow (Str (u "nan")) (data m, data h, data b)) df).
Proof.
  intros h b m. split.
  - refine (proj2 (proj2 (proj2 (proj2 (proj2
              (null_country_name_is_kept From_3 [h] [b] [m] h b m
                 _ _ _ _ _ _)))))); simpl; auto.
  - refine (proj2 (proj2 (proj2 (proj2 (proj2
              (null_country_name_is_kept Before_3 [h] [b] [m] h b m
                 _ _ _ _ _ _)))))); simpl; auto.
Defined.

(** C10, as the specification states it, fails with pandas 3: the missing
    name of a row is not turned into the string "nan" but stays missing,
    in the standardised table and in the merged table. *)
Lemma null_country_name_counterexample :
  let h := mkRow NaN no_health in
  let b := mkRow NaN (Some 7%Q) in
  let m := mkRow NaN unknown_status in
  standardize_country_names_on From_3 [m] create_country_mapping = [m]
  /\ fst (merge_datasets_on From_3 [h] [b] [m])
     = With_births [mkRow NaN (data m, data h, data b)]
  /\ ~ (forall p mapping,
          standardize_name_on p mapping NaN = Str (u "nan")).
Proof.
  intros h b m. split; [reflexivity|]. split; [reflexivity|].
  intros H. specialize (H From_3 []). discriminate H.
Qed.

(** ** The aggregator *)

Section CoverageFacts.

Context {T : Type} `{Num T}.

(** The specification's sums run over the rows of the filtered group.  A
    row of the group has its value and its births present; [zero] stands
    in for a missing entry only to make the projections total. *)
Definition value_at (ind : indicator) (r : @merged_row T) : T :=
  match indicator_of ind r with Some v => v | None => zero end.

Definition births_at (r : @merged_row T) : T :=
  match births_of r with Some b => b | None => zero end.

(** [sigma f g]: the sum of [f r] over the rows [r] of [g]. *)
Definition sigma (f : @merged_row T -> T) (g : list (@merged_row T)) : T :=
  fold_left (fun acc r => add acc (f r)) g zero.

(** The numerator and the denominator of the weighted average, and the
    signed total, as the specification writes them. *)
Definition weighted_sum (ind : indicator) (g : list (@merged_row T)) : T :=
  sigma (fun r => mul (value_at ind r) (absv (births_at r))) g.

Definition total_weight (g : list (@merged_row T)) : T :=
  sigma (fun r => absv (births_at r)) g.

Definition signed_total (g : list (@merged_row T)) : T :=
  sigma births_at g.

Lemma subset_In (df : list (@merged_row T)) ind status r :
  In r (subset df ind status) ->
  In r df /\ status_of r = Str status
  /\ (exists v, indicator_of ind r = Some v)
  /\ (exists b, births_of r = Some b).
Proof.
  unfold subset. intros Hr. apply filter_In in Hr as [Hin E].
  apply andb_true_iff in E as [E Eb]. apply andb_true_iff in E as [Es Ev].
  split; [exact Hin|]. split.
  - now destruct (cell_eqb_spec (status_of r) (Str status)).
  - split.
    + destruct (indicator_of ind r) as [v|]; [now exists v|discriminate].
    + destruct (births_of r) as [b|]; [now exists b|discriminate].
Qed.

Lemma present_map (f : @merged_row T -> option T) (d : @merged_row T -> T)
      (g : list (@merged_row T)) :
  (forall r, In r g -> f r = Some (d r)) ->
  present (map f g) = map d g.
Proof.
  induction g as [|r g IH]; intros Hf; [reflexivity|]. simpl.
  rewrite (Hf r (or_introl eq_refl)). f_equal. apply IH.
  intros r' Hr'. apply Hf. now right.
Qed.

Lemma subset_values (df : list (@merged_row T)) ind status :
  present (map (indicator_of ind) (subset df ind status))
  = map (value_at ind) (subset df ind status).
Proof.
  apply present_map. intros r Hr.
  destruct (subset_In _ _ _ _ Hr) as (_ & _ & [v Ev] & _).
  unfold value_at. now rewrite Ev.
Qed.

Lemma subset_births (df : list (@merged_row T)) ind status :
  present (map births_of (subset df ind status))
  = map births_at (subset df ind status).
Proof.
  apply present_map. intros r Hr.
  destruct (subset_In _ _ _ _ Hr) as (_ & _ & _ & [b Eb]).
  unfold births_at. now rewrite Eb.
Qed.

Lemma multiply_map {X} (f h : X -> T) (l : list X) :
  multiply (map f l) (map h l) = map (fun x => mul (f x) (h x)) l.
Proof. induction l as [|x l IH]; simpl; [reflexivity|now rewrite IH]. Qed.

Lemma sum_map (f : @merged_row T -> T) (g : list (@merged_row T)) :
  sum (map f g) = sigma f g.
Proof.
  unfold sum, sigma. generalize zero.
  induction g as [|r g IH]; intros a; simpl; [reflexivity|apply IH].
Qed.

(** The columns the function extracts hold the sums of the
    specification. *)
Lemma average_of_subset (df : list (@merged_row T)) ind status :
  average (present (map (indicator_of ind) (subset df ind status)))
          (map absv (present (map births_of (subset df ind status))))
  = if eqb (total_weight (subset df ind status)) zero
    then Raise ZeroDivisionError
    else Return (div (weighted_sum ind (subset df ind status))
                     (total_weight (subset df ind status))).
Proof.
  unfold average.
  rewrite subset_values, subset_births, map_map, multiply_map, !sum_map.
  reflexivity.
Qed.

Lemma nonempty_length {X} (l : list X) : l <> [] -> (length l =? 0) = false.
Proof. destruct l; [congruence|reflexivity]. Qed.

(** C1, as the code has it.  For a non-empty filtered group whose total
    absolute weight is not zero, the function returns a summary with
    [weighted_coverage] the sum of value times absolute births divided by
    the sum of absolute births, [total_births] the signed sum of births,
    and [n_countries] the size of the group. *)
Theorem weighted_coverage_formula
    (df : list (@merged_row T)) (ind : indicator) (status : pystr) :
  subset df ind status <> [] ->
  eqb (total_weight (subset df ind status)) zero = false ->
  exists s,
    calculate_population_weighted_coverage df ind status = Return s
    /\ weighted_coverage s
       = Some (div (weighted_sum ind (subset df ind status))
                   (total_weight (subset df ind status)))
    /\ total_births s = Some (signed_total (subset df ind status))
    /\ n_countries s = length (subset df ind status).
Proof.
  intros Hne Hw. unfold calculate_population_weighted_coverage. cbv zeta.
  rewrite (nonempty_length _ Hne), average_of_subset, Hw.
  eexists. split; [reflexivity|]. simpl. repeat split.
  unfold signed_total. now rewrite subset_births, sum_map.
Qed.

(** C3.  What the code does where the specification asks for the
    sentinel: for a non-empty filtered group whose absolute weights sum to
    zero, the weighted-average step is entered and raises
    [ZeroDivisionError].  The guard of the function covers the empty group
    only. *)
Theorem zero_total_weight_raises
    (df : list (@merged_row T)) (ind : indicator) (status : pystr) :
  subset df ind status <> [] ->
  eqb (total_weight (subset df ind status)) zero = true ->
  calculate_population_weighted_coverage df ind status
  = Raise ZeroDivisionError.
Proof.
  intros Hne Hw. unfold calculate_population_weighted_coverage. cbv zeta.
  now rewrite (nonempty_length _ Hne), average_of_subset, Hw.
Qed.

(** C4, as the code has it.  When the filtered group is empty the function
    returns the summary with no country, [total_births] zero, and
    [weighted_coverage], minimum, maximum and median not-a-number. *)
Theorem empty_group_summary
    (df : list (@merged_row T)) (ind : indicator) (status : pystr) :
  subset df ind status = [] ->
  calculate_population_weighted_coverage df ind status
  = Return {| track_status := status;
              s_indicator := ind;
              n_countries := 0;
              total_births := Some zero;
              weighted_coverage := None;
              min_coverage := None;
              max_coverage := None;
              median_coverage := None;
              countries := [] |}.
Proof.
  intros E. unfold calculate_population_weighted_coverage. now rewrite E.
Qed.

End CoverageFacts.

(** *** In machine arithmetic *)

Definition merged_of {T} (name status : pystr) (anc4 sba births : option T)
  : @merged_row T :=
  mkRow (Str name)
        ({| ISO3Code := NaN; Mortality_Status_Binary := Str status |},
         {| ANC4 := anc4; SBA := sba |},
         births).

Lemma weighted_coverage_formula_witness :
  let df := [merged_of (u "A") on_track (Some 20%float) None
                       (Some (-5000)%float);
             merged_of (u "B") on_track (Some 80%float) None
                       (Some 300%float)] in
  exists s,
    calculate_population_weighted_coverage df IndANC4 on_track = Return s
    /\ weighted_coverage s
       = Some (div (weighted_sum IndANC4 (subset df IndANC4 on_track))
                   (total_weight (subset df IndANC4 on_track)))
    /\ total_births s = Some (signed_total (subset df IndANC4 on_track))
    /\ n_countries s = length (subset df IndANC4 on_track).
Proof.
  intros df. apply (weighted_coverage_formula df IndANC4 on_track).
  - vm_compute. discriminate.
  - vm_compute. reflexivity.
Defined.

(** The scenario of the specification: births of -5000 weigh 5000 in the
    average and count -5000 in the total. *)
Example negative_births_scenario :
  let g := [merged_of (u "A") on_track (Some 20%float) None
                      (Some (-5000)%float);
            merged_of (u "B") on_track (Some 80%float) None
                      (Some 300%float)] in
  subset g IndANC4 on_track = g
  /\ weighted_sum IndANC4 g = (20 * 5000 + 80 * 300)%float
  /\ total_weight g = (5000 + 300)%float
  /\ signed_total g = (-5000 + 300)%float.
Proof. vm_compute. repeat split. Qed.

(** C1, as the specification states it, fails on a non-empty group whose
    births are all zero: the function raises and returns no summary. *)
Lemma weighted_coverage_formula_counterexample :
  let df := [merged_of (u "A") on_track (Some 50%float) None
                       (Some 0%float)] in
  subset df IndANC4 on_track <> []
  /\ calculate_population_weighted_coverage df IndANC4 on_track
     = Raise ZeroDivisionError
  /\ ~ (exists s,
          calculate_population_weighted_coverage df IndANC4 on_track
          = Return s).
Proof.
  intros df. split; [vm_compute; discriminate|].
  split; [vm_compute; reflexivity|].
  intros [s E]. vm_compute in E. discriminate E.
Qed.

Lemma zero_total_weight_witness :
  calculate_population_weighted_coverage
    [merged_of (u "A") off_track None (Some 40%float) (Some 0%float);
     merged_of (u "B") off_track None (Some 60%float) (Some (-0)%float)]
    IndSBA off_track
  = Raise ZeroDivisionError.
Proof.
  apply zero_total_weight_raises.
  - vm_compute. discriminate.
  - vm_compute. reflexivity.
Defined.

(** The summary the specification calls the empty-result sentinel: no
    country and every numeric field not-a-number. *)
Definition all_nan_sentinel {T} (s : summary T) : Prop :=
  n_countries s = 0 /\ countries s = []
  /\ total_births s = None /\ weighted_coverage s = None
  /\ min_coverage s = None /\ max_coverage s = None
  /\ median_coverage s = None.

(** C3.  The failing input: two countries with zero births form a
    non-empty group of total weight zero, and the function raises instead
    of returning the sentinel. *)
Lemma zero_total_weight_counterexample :
  let df := [merged_of (u "A") off_track (Some 40%float) None
                       (Some 0%float);
             merged_of (u "B") off_track (Some 60%float) None
                       (Some 0%float)] in
  length (subset df IndANC4 off_track) = 2
  /\ total_weight (subset df IndANC4 off_track) = 0%float
  /\ calculate_population_weighted_coverage df IndANC4 off_track
     = Raise ZeroDivisionError
  /\ ~ (exists s,
          calculate_population_weighted_coverage df IndANC4 off_track
          = Return s /\ all_nan_sentinel s).
Proof.
  intros df. repeat (split; [vm_compute; reflexivity|]).
  intros [s [E _]]. vm_compute in E. discriminate E.
Qed.

Lemma empty_group_summary_witness :
  calculate_population_weighted_coverage
    [merged_of (u "A") on_track (Some 50%float) None (Some 10%float)]
    IndANC4 off_track
  = Return {| track_status := off_track;
              s_indicator := IndANC4;
              n_countries := 0;
              total_births := Some 0%float;
              weighted_coverage := None;
              min_coverage := None;
              max_coverage := None;
              median_coverage := None;
              countries := [] |}.
Proof.
  exact (empty_group_summary
           [merged_of (u "A") on_track (Some 50%float) None (Some 10%float)]
           IndANC4 off_track eq_refl).
Defined.

(** C4, as the specification states it, fails: on an empty group
    [total_births] is zero, not not-a-number. *)
Lemma empty_group_summary_counterexample :
  subset (T := float) [] IndANC4 on_track = []
  /\ exists s,
       calculate_population_weighted_coverage (T := float) []
         IndANC4 on_track = Return s
       /\ total_births s = Some 0%float
       /\ ~ all_nan_sentinel s.
Proof.
  split; [reflexivity|]. eexists. split; [reflexivity|].
  split; [reflexivity|].
  intros (_ & _ & E & _). discriminate E.
Qed.

(** *** In exact arithmetic *)

Section CoverageExact.

Local Open Scope Q_scope.

(** The sum of a list of rationals, as [sum] computes it. *)
Definition sumQ (l : list Q) : Q := fold_left Qplus l 0.

Lemma sumQ_is_sum (l : list Q) : sum l = sumQ l.
Proof. reflexivity. Qed.

Lemma fold_Qplus_shift (l : list Q) (a : Q) :
  fold_left Qplus l a == a + sumQ l.
Proof.
  unfold sumQ. revert a. induction l as [|x l IH]; intros a; simpl.
  - ring.
  - rewrite (IH (a + x)), (IH (0 + x)). ring.
Qed.

Lemma sumQ_cons (x : Q) (l : list Q) : sumQ (x :: l) == x + sumQ l.
Proof.
  unfold sumQ at 1. simpl. rewrite fold_Qplus_shift. ring.
Qed.

Lemma min2_le (x y : Q) : min2 x y <= x /\ min2 x y <= y.
Proof.
  unfold min2. simpl leb. destruct (Qle_bool x y) eqn:E.
  - apply Qle_bool_iff in E. split; [apply Qle_refl|exact E].
  - split; [|apply Qle_refl]. apply Qlt_le_weak, Qnot_le_lt.
    intros Hle. apply Qle_bool_iff in Hle. congruence.
Qed.

Lemma max2_ge (x y : Q) : x <= max2 x y /\ y <= max2 x y.
Proof.
  unfold max2. simpl leb. destruct (Qle_bool x y) eqn:E.
  - apply Qle_bool_iff in E. split; [exact E|apply Qle_refl].
  - split; [apply Qle_refl|]. apply Qlt_le_weak, Qnot_le_lt.
    intros Hle. apply Qle_bool_iff in Hle. congruence.
Qed.

Lemma fold_min2_le (l : list Q) (x : Q) :
  fold_left min2 l x <= x /\ Forall (fun v => fold_left min2 l x <= v) l.
Proof.
  revert x. induction l as [|a l IH]; intros x; simpl.
  - split; [apply Qle_refl|constructor].
  - destruct (IH (min2 x a)) as [H1 H2].
    destruct (min2_le x a) as [Hx Ha].
    split; [eapply Qle_trans; eassumption|].
    constructor; [eapply Qle_trans; eassumption|exact H2].
Qed.

Lemma fold_max2_ge (l : list Q) (x : Q) :
  x <= fold_left max2 l x /\ Forall (fun v => v <= fold_left max2 l x) l.
Proof.
  revert x. induction l as [|a l IH]; intros x; simpl.
  - split; [apply Qle_refl|constructor].
  - destruct (IH (max2 x a)) as [H1 H2].
    destruct (max2_ge x a) as [Hx Ha].
    split; [eapply Qle_trans; eassumption|].
    constructor; [eapply Qle_trans; eassumption|exact H2].
Qed.

Lemma minimum_le (l : list Q) (lo : Q) :
  minimum l = Some lo -> Forall (fun v => lo <= v) l.
Proof.
  destruct l as [|x l]; simpl; [discriminate|]. intros [= <-].
  destruct (fold_min2_le l x) as [H1 H2]. now constructor.
Qed.

Lemma maximum_ge (l : list Q) (hi : Q) :
  maximum l = Some hi -> Forall (fun v => v <= hi) l.
Proof.
  destruct l as [|x l]; simpl; [discriminate|]. intros [= <-].
  destruct (fold_max2_ge l x) as [H1 H2]. now constructor.
Qed.

(** A sum of values weighted by non-negative weights lies between the
    total weight times a lower and times an upper bound of the values. *)
Lemma weighted_sum_bounds (lo hi : Q) (vs ws : list Q) :
  length vs = length ws ->
  Forall (fun v => lo <= v) vs ->
  Forall (fun v => v <= hi) vs ->
  Forall (fun w => 0 <= w) ws ->
  lo * sumQ ws <= sumQ (multiply vs ws)
  /\ sumQ (multiply vs ws) <= hi * sumQ ws.
Proof.
  revert ws. induction vs as [|v vs IH]; intros [|w ws] Hlen Hlo Hhi Hw;
    try discriminate Hlen.
  - unfold sumQ; simpl. split; lra.
  - inversion Hlo as [|? ? Hv1 Hlo']; inversion Hhi as [|? ? Hv2 Hhi'];
      inversion Hw as [|? ? Hw0 Hw']; subst.
    injection Hlen as Hlen.
    destruct (IH ws Hlen Hlo' Hhi' Hw') as [IH1 IH2].
    change (multiply (v :: vs) (w :: ws))
      with (Qmult v w :: multiply vs ws).
    rewrite !sumQ_cons. split; nra.
Qed.

Lemma map_Qabs_nonneg (l : list Q) : Forall (fun w => 0 <= w) (map Qabs l).
Proof.
  induction l; simpl; constructor; [apply Qabs_nonneg|assumption].
Qed.

End CoverageExact.

Lemma minimum_nonempty {T} `{Num T} (l : list T) :
  l <> [] -> exists lo, minimum l = Some lo.
Proof. destruct l as [|x l]; [congruence|]. intros _. now eexists. Qed.

Lemma maximum_nonempty {T} `{Num T} (l : list T) :
  l <> [] -> exists hi, maximum l = Some hi.
Proof. destruct l as [|x l]; [congruence|]. intros _. now eexists. Qed.

(** C9, as the code has it.  In exact arithmetic, for a non-empty filtered
    group of positive total absolute weight, the function returns a
    summary whose [weighted_coverage] lies between its [min_coverage] and
    its [max_coverage]. *)
Theorem weighted_coverage_within_range_exact
    (df : list (@merged_row Q)) (ind : indicator) (status : pystr) :
  subset df ind status <> [] ->
  (0 < total_weight (subset df ind status))%Q ->
  exists s wc lo hi,
    calculate_population_weighted_coverage df ind status = Return s
    /\ weighted_coverage s = Some wc
    /\ min_coverage s = Some lo
    /\ max_coverage s = Some hi
    /\ (lo <= wc)%Q /\ (wc <= hi)%Q.
Proof.
  intros Hne Hpos.
  assert (Hw : eqb (total_weight (subset df ind status)) zero = false).
  { change (Qeq_bool (total_weight (subset df ind status)) 0 = false).
    destruct (Qeq_bool _ 0) eqn:E; [|reflexivity].
    apply Qeq_bool_iff in E. rewrite E in Hpos.
    now apply Qlt_irrefl in Hpos. }
  unfold calculate_population_weighted_coverage. cbv zeta.
  rewrite (nonempty_length _ Hne), average_of_subset, Hw, subset_values.
  set (g := subset df ind status) in *.
  assert (Hg : map (value_at ind) g <> []) by (now destruct g).
  destruct (minimum_nonempty _ Hg) as [lo Elo].
  destruct (maximum_nonempty _ Hg) as [hi Ehi].
  exists {| track_status := status; s_indicator := ind;
            n_countries := length g;
            total_births := Some (sum (present (map births_of g)));
            weighted_coverage :=
              Some (div (weighted_sum ind g) (total_weight g));
            min_coverage := minimum (map (value_at ind) g);
            max_coverage := maximum (map (value_at ind) g);
            median_coverage := median (map (value_at ind) g);
            countries := map Country g |}.
  exists (div (weighted_sum ind g) (total_weight g)), lo, hi.
  split; [reflexivity|]. split; [reflexivity|].
  split; [exact Elo|]. split; [exact Ehi|].
  assert (Hnum : weighted_sum ind g
                 = sumQ (multiply (map (value_at ind) g)
                                  (map (fun r => Qabs (births_at r)) g))).
  { unfold weighted_sum. rewrite <- sum_map, <- multiply_map. reflexivity. }
  assert (Hden : total_weight g = sumQ (map (fun r => Qabs (births_at r)) g)).
  { unfold total_weight. rewrite <- sum_map. reflexivity. }
  destruct (weighted_sum_bounds lo hi (map (value_at ind) g)
              (map (fun r => Qabs (births_at r)) g)) as [B1 B2].
  - now rewrite !length_map.
  - now apply minimum_le.
  - now apply maximum_ge.
  - rewrite <- (map_map births_at Qabs). apply map_Qabs_nonneg.
  - rewrite <- Hnum, <- Hden in B1, B2.
    change (div (weighted_sum ind g) (total_weight g))
      with (weighted_sum ind g / total_weight g)%Q.
    split.
    + now apply Qle_shift_div_l.
    + now apply Qle_shift_div_r.
Qed.

Lemma weighted_coverage_within_range_witness :
  exists s wc lo hi,
    calculate_population_weighted_coverage
      [merged_of (u "A") off_track (Some 20%Q) None (Some 100%Q);
       merged_of (u "B") off_track (Some 80%Q) None (Some 300%Q)]
      IndANC4 off_track = Return s
    /\ weighted_coverage s = Some wc
    /\ min_coverage s = Some lo
    /\ max_coverage s = Some hi
    /\ (lo <= wc)%Q /\ (wc <= hi)%Q.
Proof.
  apply weighted_coverage_within_range_exact.
  - vm_compute. discriminate.
  - vm_compute. reflexivity.
Defined.

(** The scenario of the specification: values 20 and 80 weighted by 100
    and 300 births average to 65. *)
Example two_countries_scenario :
  exists s wc,
    calculate_population_weighted_coverage
      [merged_of (u "A") off_track (Some 20%Q) None (Some 100%Q);
       merged_of (u "B") off_track (Some 80%Q) None (Some 300%Q)]
      IndANC4 off_track = Return s
    /\ weighted_coverage s = Some wc /\ (wc == 65)%Q
    /\ n_countries s = 2.
Proof. eexists. eexists. repeat split. Qed.

(** One tenth, the binary64 number nearest to it. *)
Definition one_tenth : float := 0x1.999999999999ap-4%float.

(** C9, as the specification states it, fails in the arithmetic the
    program runs in: three countries with coverage one tenth and equal
    births average to the next larger binary64 number, above their
    maximum. *)
Lemma weighted_coverage_within_range_counterexample :
  let df := [merged_of (u "A") on_track (Some one_tenth) None (Some 1%float);
             merged_of (u "B") on_track (Some one_tenth) None (Some 1%float);
             merged_of (u "C") on_track (Some one_tenth) None (Some 1%float)]
  in
  total_weight (subset df IndANC4 on_track) = 3%float
  /\ exists s wc hi,
       calculate_population_weighted_coverage df IndANC4 on_track = Return s
       /\ weighted_coverage s = Some wc
       /\ max_coverage s = Some hi
       /\ hi = one_tenth
       /\ wc = 0x1.999999999999bp-4%float
       /\ PrimFloat.ltb hi wc = true
       /\ PrimFloat.leb wc hi = false.
Proof.
  intros df. split; [vm_compute; reflexivity|].
  eexists. eexists. eexists.
  split; [vm_compute; reflexivity|].
  repeat split; vm_compute; reflexivity.
Qed.

(** ** The most recent estimate *)

Lemma last_cons_default {X} (y d : X) (ys : list X) :
  last (y :: ys) d = last ys y.
Proof.
  revert y d. induction ys as [|z ys IH]; intros y d; [reflexivity|].
  change (last (y :: z :: ys) d) with (last (z :: ys) d).
  now rewrite !IH.
Qed.

Lemma last_In {X} (l : list X) (d : X) : l <> [] -> In (last l d) l.
Proof.
  induction l as [|x l IH]; [congruence|]. intros _.
  destruct l as [|y l]; [now left|].
  right. apply IH. discriminate.
Qed.

Lemma last_filter {X} (f : X -> bool) (l : list X) (d : X) :
  l <> [] -> f (last l d) = true -> last (filter f l) d = last l d.
Proof.
  induction l as [|x l IH]; [congruence|]. intros _ Hf.
  destruct l as [|y l].
  - simpl in *. now rewrite Hf.
  - change (last (x :: y :: l) d) with (last (y :: l) d) in *.
    assert (IH' := IH ltac:(discriminate) Hf).
    change (filter f (x :: y :: l))
      with (if f x then x :: filter f (y :: l) else filter f (y :: l)).
    destruct (f x); [|exact IH'].
    assert (Hne : filter f (y :: l) <> []).
    { intros E. pose proof (last_In (y :: l) d ltac:(discriminate)) as Hin.
      assert (Hin' : In (last (y :: l) d) (filter f (y :: l)))
        by (apply filter_In; now split).
      rewrite E in Hin'. destruct Hin'. }
    destruct (filter f (y :: l)) as [|z zs]; [congruence|].
    exact IH'.
Qed.

Lemma filter_twice {X} (f h : X -> bool) (l : list X) :
  filter f (filter h l) = filter (fun x => f x && h x) l.
Proof.
  induction l as [|x l IH]; [reflexivity|]. simpl.
  destruct (h x); simpl; rewrite ?andb_true_r, ?andb_false_r;
    [destruct (f x)|]; now rewrite IH.
Qed.

Lemma filter_swap {X} (f h : X -> bool) (l : list X) :
  filter f (filter h l) = filter h (filter f l).
Proof.
  rewrite !filter_twice. apply filter_ext. intros x. apply andb_comm.
Qed.

Section UnicefFacts.

Context {V : Type}.

Definition by_year (a b : @labelled V) : Prop := (year a <= year b)%Z.

Lemma indicator_eqb_spec (a b : indicator) :
  reflect (a = b) (indicator_eqb a b).
Proof. destruct a, b; constructor; congruence. Qed.

Lemma key_eqb_spec (k k' : pystr * indicator) :
  reflect (k = k') (key_eqb k k').
Proof.
  destruct k as [c i], k' as [c' i']. unfold key_eqb. simpl.
  destruct (PyStrFacts.eqb_spec c c'), (indicator_eqb_spec i i');
    constructor; congruence.
Qed.

Lemma in_group_iff (k : pystr * indicator) (x : @labelled V) :
  in_group k x = true <-> group_key x = Some k.
Proof.
  unfold in_group. destruct (group_key x) as [k'|].
  - destruct (key_eqb_spec k k'); split; congruence.
  - split; discriminate.
Qed.

Lemma existsb_filter_nil {X} (f : X -> bool) (l : list X) :
  existsb f l = false <-> filter f l = [].
Proof.
  induction l as [|x l IH]; simpl; [tauto|].
  destruct (f x); simpl; [split; discriminate|exact IH].
Qed.

(** [groupby(...).tail(1)] keeps, of every group, its last row and no
    other. *)
Lemma groupby_tail1_group (k : pystr * indicator) (l : list (@labelled V)) :
  filter (in_group k) (groupby_tail1 l)
  = match filter (in_group k) l with
    | [] => []
    | y :: ys => [last ys y]
    end.
Proof.
  induction l as [|x l IH]; [reflexivity|].
  simpl groupby_tail1. destruct (group_key x) as [kx|] eqn:Ex.
  - assert (Hx : in_group k x = true <-> kx = k).
    { rewrite in_group_iff, Ex. split; congruence. }
    destruct (existsb (in_group kx) l) eqn:El.
    + rewrite IH. simpl filter.
      destruct (in_group k x) eqn:Ek; [|reflexivity].
      assert (kx = k) by now apply Hx. subst kx.
      destruct (filter (in_group k) l) as [|y ys] eqn:Ef.
      * apply existsb_filter_nil in Ef. congruence.
      * now rewrite last_cons_default.
    + simpl filter. destruct (in_group k x) eqn:Ek; [|exact IH].
      assert (kx = k) by now apply Hx. subst kx.
      apply existsb_filter_nil in El. rewrite IH, El. reflexivity.
  - simpl filter.
    assert (Ek : in_group k x = false).
    { destruct (in_group k x) eqn:Ek; [|reflexivity].
      apply in_group_iff in Ek. congruence. }
    rewrite Ek. exact IH.
Qed.

Lemma filter_sorted (f : @labelled V -> bool) (l : list (@labelled V)) :
  StronglySorted by_year l -> StronglySorted by_year (filter f l).
Proof.
  induction 1 as [|x l Hs IH Hx]; simpl; [constructor|].
  destruct (f x); [|exact IH]. constructor; [exact IH|].
  rewrite Forall_forall in *. intros y Hy. apply Hx.
  now apply filter_In in Hy as [Hy _].
Qed.

(** In a frame sorted by year the last row has the largest year. *)
Lemma sorted_last_max (l : list (@labelled V)) (d z : @labelled V) :
  StronglySorted by_year l -> In z l -> (year z <= year (last l d))%Z.
Proof.
  induction 1 as [|x l Hs IH Hx]; intros Hz; [destruct Hz|].
  destruct l as [|y l].
  - destruct Hz as [->|[]]. simpl. lia.
  - change (last (x :: y :: l) d) with (last (y :: l) d).
    destruct Hz as [->|Hz]; [|now apply IH].
    rewrite Forall_forall in Hx. apply Hx. apply last_In. discriminate.
Qed.

(** What every sort by [TIME_PERIOD] guarantees, and what only a stable
    one does. *)
Definition sorts_by_year
    (sort_values : list (@labelled V) -> list (@labelled V)) : Prop :=
  forall l, Permutation l (sort_values l)
            /\ StronglySorted by_year (sort_values l).

Definition same_year (m : Z) (x : @labelled V) : bool := (year x =? m)%Z.

Definition keeps_input_order
    (sort_values : list (@labelled V) -> list (@labelled V)) : Prop :=
  forall l m, filter (same_year m) (sort_values l) = filter (same_year m) l.

(** The rows of group [k] that share the year of [x], in input order. *)
Definition tied_with (k : pystr * indicator) (x : @labelled V)
    (df : list (unicef_row V)) : list (@labelled V) :=
  filter (fun y => in_group k y && same_year (year x) y) (df_labelled df).

(** A sort by year keeps the rows of each group. *)
Lemma sorted_group_rows
    (sort_values : list (@labelled V) -> list (@labelled V))
    (l : list (@labelled V)) (k : pystr * indicator) :
  sorts_by_year sort_values ->
  forall z, In z (filter (in_group k) (sort_values l))
            <-> In z l /\ group_key z = Some k.
Proof.
  intros Hsort z. destruct (Hsort l) as [Hperm _].
  rewrite filter_In, in_group_iff. split; intros [Hz Kz];
    (split; [|exact Kz]).
  - eapply Permutation_in; [symmetry; exact Hperm|exact Hz].
  - eapply Permutation_in; [exact Hperm|exact Hz].
Qed.

(** Under a sort that keeps rows of one year in input order, the last row
    of a group in the sorted frame is the last row, in input order, of the
    group's rows of its year. *)
Lemma last_of_group_tied
    (sort_values : list (@labelled V) -> list (@labelled V))
    (df : list (unicef_row V)) (k : pystr * indicator)
    (y : @labelled V) (ys : list (@labelled V)) :
  keeps_input_order sort_values ->
  filter (in_group k) (sort_values (df_labelled df)) = y :: ys ->
  forall d, last ys y = last (tied_with k (last ys y) df) d.
Proof.
  intros Hstable Ef d. unfold tied_with.
  set (x := last ys y).
  rewrite <- (filter_twice (in_group k) (same_year (year x))
                           (df_labelled df)).
  rewrite <- (Hstable (df_labelled df) (year x)).
  rewrite filter_swap, Ef.
  rewrite (last_filter (same_year (year x)) (y :: ys) d).
  - now rewrite last_cons_default.
  - discriminate.
  - rewrite last_cons_default. apply Z.eqb_refl.
Qed.

(** C8, as the code has it.  Whatever sort by year is used, every
    (country, simplified indicator) pair with a row in the reduced frame's
    input has exactly one surviving row; that row is one of the pair's
    rows and no row of the pair has a later year.  Which of several rows
    of that year survives is left to the sort: if the sort keeps rows of
    one year in input order, the survivor is the last of them in input
    order. *)
Theorem most_recent_record
    (sort_values : list (@labelled V) -> list (@labelled V))
    (df : list (unicef_row V)) (k : pystr * indicator) :
  sorts_by_year sort_values ->
  (exists y, In y (df_labelled df) /\ group_key y = Some k) ->
  exists x,
    filter (in_group k) (df_recent sort_values df) = [x]
    /\ In x (df_labelled df)
    /\ group_key x = Some k
    /\ (forall y, In y (df_labelled df) -> group_key y = Some k ->
                  (year y <= year x)%Z)
    /\ (keeps_input_order sort_values ->
        forall d, x = last (tied_with k x df) d).
Proof.
  intros Hsort (y0 & Hy0 & Ky0). unfold df_recent.
  pose proof (sorted_group_rows sort_values (df_labelled df) k Hsort) as Hin.
  destruct (Hsort (df_labelled df)) as [_ Hsorted].
  pose proof (filter_sorted (in_group k) _ Hsorted) as Hfs.
  rewrite groupby_tail1_group.
  destruct (filter (in_group k) (sort_values (df_labelled df)))
    as [|y ys] eqn:Ef.
  { exfalso. apply (proj2 (Hin y0)). now split. }
  assert (Ex : forall d, last (y :: ys) d = last ys y)
    by (intros; apply last_cons_default).
  assert (Hx : In (last ys y) (y :: ys)).
  { rewrite <- (Ex y). apply last_In. discriminate. }
  exists (last ys y). split; [reflexivity|].
  split; [now apply Hin|]. split; [now apply Hin|]. split.
  - intros z Hz Kz. rewrite <- (Ex y).
    apply sorted_last_max; [exact Hfs|]. apply Hin. now split.
  - intros Hstable.
    exact (last_of_group_tied sort_values df k y ys Hstable Ef).
Qed.

(** X28.  Under a sort by year that keeps rows of one year in input
    order, the surviving row of a (country, simplified indicator) pair is
    the last row of the frame, in input order, among the pair's rows of
    the latest year. *)
Theorem stable_sort_keeps_last_tied
    (sort_values : list (@labelled V) -> list (@labelled V))
    (df : list (unicef_row V)) (k : pystr * indicator) :
  sorts_by_year sort_values ->
  keeps_input_order sort_values ->
  (exists y, In y (df_labelled df) /\ group_key y = Some k) ->
  exists x,
    filter (in_group k) (df_recent sort_values df) = [x]
    /\ (forall y, In y (df_labelled df) -> group_key y = Some k ->
                  (year y <= year x)%Z)
    /\ forall d, x = last (tied_with k x df) d.
Proof.
  intros Hsort Hstable (y0 & Hy0 & Ky0). unfold df_recent.
  pose proof (sorted_group_rows sort_values (df_labelled df) k Hsort) as Hin.
  destruct (Hsort (df_labelled df)) as [_ Hsorted].
  rewrite groupby_tail1_group.
  destruct (filter (in_group k) (sort_values (df_labelled df)))
    as [|y ys] eqn:Ef.
  { exfalso. apply (proj2 (Hin y0)). now split. }
  exists (last ys y). split; [reflexivity|]. split.
  - intros z Hz Kz. rewrite <- (last_cons_default y y ys).
    apply sorted_last_max.
    + rewrite <- Ef. now apply filter_sorted.
    + apply Hin. now split.
  - exact (last_of_group_tied sort_values df k y ys Hstable Ef).
Qed.

End UnicefFacts.

Ltac perm_solve :=
  repeat first
    [ apply perm_nil
    | apply perm_skip
    | match goal with
      | |- Permutation (?a :: _) (?x :: ?a :: ?l2) =>
          apply (@Permutation_cons_app _ _ [x] l2 a); cbn [app]
      | |- Permutation (?a :: _) (?x :: ?y :: ?a :: ?l2) =>
          apply (@Permutation_cons_app _ _ [x; y] l2 a); cbn [app]
      | |- Permutation (?a :: _) (?x :: ?y :: ?z :: ?a :: ?l2) =>
          apply (@Permutation_cons_app _ _ [x; y; z] l2 a); cbn [app]
      end ].

Section SortFacts.

Context {V : Type}.

Lemma insert_by_year_perm (x : @labelled V) (l : list (@labelled V)) :
  Permutation (x :: l) (insert_by_year x l).
Proof.
  induction l as [|y l IH]; simpl; [reflexivity|].
  destruct (year x <=? year y)%Z; [reflexivity|].
  rewrite perm_swap. now constructor.
Qed.

Lemma insert_by_year_sorted (x : @labelled V) (l : list (@labelled V)) :
  StronglySorted by_year l -> StronglySorted by_year (insert_by_year x l).
Proof.
  induction 1 as [|y l Hs IH Hy]; simpl.
  - constructor; constructor.
  - destruct (Z.leb_spec (year x) (year y)) as [Hle|Hlt].
    + constructor; [now constructor|].
      constructor; [exact Hle|].
      rewrite Forall_forall in *. intros z Hz.
      unfold by_year in *. specialize (Hy z Hz). lia.
    + constructor; [exact IH|].
      rewrite Forall_forall in *. intros z Hz.
      apply (Permutation_in z (Permutation_sym (insert_by_year_perm x l)))
        in Hz.
      destruct Hz as [<-|Hz]; [unfold by_year; lia|now apply Hy].
Qed.

Lemma insert_by_year_same_year (m : Z) (x : @labelled V)
      (l : list (@labelled V)) :
  filter (same_year m) (insert_by_year x l)
  = filter (same_year m) (x :: l).
Proof.
  induction l as [|y l IH]; [reflexivity|].
  simpl insert_by_year.
  destruct (Z.leb_spec (year x) (year y)) as [Hle|Hlt]; [reflexivity|].
  simpl filter in *. rewrite IH. unfold same_year.
  destruct (Z.eqb_spec (year x) m), (Z.eqb_spec (year y) m);
    try reflexivity. lia.
Qed.

(** Insertion sort is a sort by year that keeps input order. *)
Lemma stable_sort_values_sorts : sorts_by_year (@stable_sort_values V).
Proof.
  intros l. induction l as [|x l [IHp IHs]]; simpl.
  - split; constructor.
  - split.
    + rewrite <- insert_by_year_perm. now constructor.
    + now apply insert_by_year_sorted.
Qed.

Lemma stable_sort_values_stable : keeps_input_order (@stable_sort_values V).
Proof.
  intros l m. induction l as [|x l IH]; [reflexivity|].
  simpl stable_sort_values. rewrite insert_by_year_same_year.
  simpl. now rewrite IH.
Qed.

(** The vectorised sort is a sort by year as well. *)
Lemma vectorised_sort_values_sorts :
  sorts_by_year (@vectorised_sort_values V).
Proof.
  intros l.
  destruct l as [|a [|b [|c [|d [|e l]]]]];
    try (split; repeat constructor; fail);
    [| | |apply stable_sort_values_sorts];
    unfold vectorised_sort_values, sort_register, cmp_merge, larger;
    repeat match goal with
           | |- context [(?x <? ?y)%Z] =>
               destruct (Z.ltb_spec x y); cbn [stored flat_map app]
           end;
    try lia;
    (split; [perm_solve | repeat constructor; unfold by_year; lia]).
Qed.

End SortFacts.

(** Two estimates for one country, one indicator and one year. *)
Definition kenya_2020 (value : Q) : unicef_row Q :=
  {| Geographic_area := Str (u "Kenya");
     Indicator := Str (u "Antenatal care 4+ visits - percentage of women");
     TIME_PERIOD := 2020;
     OBS_VALUE := value |}.

Definition kenya_anc4 : pystr * indicator := (u "Kenya", IndANC4).

Lemma most_recent_record_witness :
  let df := [kenya_2020 (61 # 1); kenya_2020 (58 # 1)] in
  exists x,
    filter (in_group kenya_anc4) (df_recent stable_sort_values df) = [x]
    /\ (forall d, x = last (tied_with kenya_anc4 x df) d)
    /\ x = (kenya_2020 (58 # 1), IndANC4).
Proof.
  intros df.
  destruct (most_recent_record stable_sort_values df kenya_anc4
              stable_sort_values_sorts)
    as (x & Hx & _ & _ & _ & Hlast).
  - exists (kenya_2020 (61 # 1), IndANC4). split; [|reflexivity].
    vm_compute. now left.
  - exists x. split; [exact Hx|].
    split; [exact (Hlast stable_sort_values_stable)|].
    vm_compute in Hx. now injection Hx as <-.
Defined.

(** An estimate for Kenya's antenatal care in a given year. *)
Definition kenya (time_period : Z) (value : Q) : unicef_row Q :=
  {| Geographic_area := Str (u "Kenya");
     Indicator := Str (u "Antenatal care 4+ visits - percentage of women");
     TIME_PERIOD := time_period;
     OBS_VALUE := value |}.

(** C8, as the specification states it, fails where NumPy sorts with its
    vectorised kernels.  Of four estimates for one country and one
    indicator, the first two are of 2020 and the last two of 2018 and
    2019.  The sorting network moves the two earlier estimates across the
    two of 2020 and leaves these in reverse order, so that the first of
    them in input order survives, not the last. *)
Lemma most_recent_record_counterexample :
  let df := [kenya 2020 (61 # 1); kenya 2020 (58 # 1);
             kenya 2018 (50 # 1); kenya 2019 (55 # 1)] in
  sorts_by_year (@vectorised_sort_values Q)
  /\ vectorised_sort_values (df_labelled df)
     = [(kenya 2018 (50 # 1), IndANC4); (kenya 2019 (55 # 1), IndANC4);
        (kenya 2020 (58 # 1), IndANC4); (kenya 2020 (61 # 1), IndANC4)]
  /\ df_recent vectorised_sort_values df = [(kenya 2020 (61 # 1), IndANC4)]
  /\ tied_with kenya_anc4 (kenya 2020 (61 # 1), IndANC4) df
     = [(kenya 2020 (61 # 1), IndANC4); (kenya 2020 (58 # 1), IndANC4)]
  /\ ~ (forall x d,
          In x (df_recent vectorised_sort_values df) ->
          x = last (tied_with kenya_anc4 x df) d).
Proof.
  intros df. split; [apply vectorised_sort_values_sorts|].
  split; [vm_compute; reflexivity|].
  split; [vm_compute; reflexivity|]. split; [vm_compute; reflexivity|].
  intros H.
  specialize (H (kenya 2020 (61 # 1), IndANC4)
                (kenya 2020 (61 # 1), IndANC4)).
  assert (E : (kenya 2020 (61 # 1), IndANC4)
              = (kenya 2020 (58 # 1), IndANC4)).
  { rewrite H at 1; [vm_compute; reflexivity|]. vm_compute. now left. }
  discriminate E.
Qed.

Lemma stable_sort_keeps_last_tied_witness :
  let df := [kenya 2020 (61 # 1); kenya 2020 (58 # 1);
             kenya 2018 (50 # 1); kenya 2019 (55 # 1)] in
  exists x,
    filter (in_group kenya_anc4) (df_recent stable_sort_values df) = [x]
    /\ (forall d, x = last (tied_with kenya_anc4 x df) d)
    /\ x = (kenya 2020 (58 # 1), IndANC4).
Proof.
  intros df.
  destruct (stable_sort_keeps_last_tied stable_sort_values df kenya_anc4
              stable_sort_values_sorts stable_sort_values_stable)
    as (x & Hx & _ & Hlast).
  - exists (kenya 2020 (61 # 1), IndANC4). split; [|reflexivity].
    vm_compute. now left.
  - exists x. split; [exact Hx|]. split; [exact Hlast|].
    vm_compute in Hx. now injection Hx as <-.
Defined.

(** ** The stages together *)

(** The scenario of the specification: one off-track country with
    coverage 40 and a million births. *)
Example country_x_scenario :
  let U := [mkRow (Str (u "Country X"))
                  {| ANC4 := Some 40%Q; SBA := None |}] in
  let P := [mkRow (Str (u "Country X")) (Some 1000000%Q)] in
  let M := [mkRow (Str (u "Country X"))
                  {| ISO3Code := Str (u "XXX");
                     Mortality_Status_Binary :=
                       classify_status (Str (u "Acceleration Needed")) |}] in
  exists df s wc tb,
    fst (merge_datasets U P M) = With_births df
    /\ calculate_population_weighted_coverage df IndANC4 off_track = Return s
    /\ n_countries s = 1
    /\ weighted_coverage s = Some wc /\ (wc == 40)%Q
    /\ total_births s = Some tb /\ (tb == 1000000)%Q.
Proof.
  intros U P M. eexists. eexists. eexists. eexists.
  split; [vm_compute; reflexivity|].
  split; [vm_compute; reflexivity|].
  repeat split.
Qed.

(** A regional aggregate is filtered out whatever its data; a country
    whose name only resembles one is kept. *)
Example regional_aggregate_scenario :
  str_contains_regional (Str (u "Sub-Saharan Africa")) = true
  /\ str_contains_regional (Str (u "Central African Republic")) = false
  /\ str_contains_regional (Str (u "United States")) = false.
Proof. vm_compute. repeat split. Qed.

(** * Further properties of the pipeline *)

(** ** Standardised names *)

(** A standardised name is a string without outer whitespace. *)
Lemma standardize_name_trimmed (mapping : dict) (c : cell) :
  exists s, standardize_name mapping c = Str s /\ PyStr.strip s = s.
Proof.
  unfold standardize_name. eexists. split; [reflexivity|].
  apply PyStrFacts.strip_idem.
Qed.

(** X1.  With the shipped mapping a second pass of
    [standardize_country_names] reaches a fixed point: a third pass changes
    nothing, whatever the table. *)
Theorem standardize_twice_fixed_point {A} (df : frame A) :
  let once := standardize_country_names df create_country_mapping in
  let twice := standardize_country_names once create_country_mapping in
  standardize_country_names twice create_country_mapping = twice.
Proof.
  cbv zeta. unfold standardize_country_names. rewrite !map_map.
  apply map_ext. intros r. simpl. f_equal.
  destruct (standardize_name_trimmed create_country_mapping (Country r))
    as (y & -> & Ey).
  rewrite !standardize_name_Str. f_equal.
  now apply normalize_idempotent_trimmed.
Qed.

(** ** The regional patterns *)

Module ReFacts.

(** [m] spells [p] up to letter case. *)
Definition spells (p m : pystr) : Prop :=
  map Re.sre_lower m = map Re.sre_lower p.

Lemma spells_lit_match (p m : pystr) :
  spells p m -> Forall2 (fun c d => Re.lit_match c d = true) p m.
Proof.
  unfold spells. revert m. induction p as [|c p IH]; intros [|d m] E;
    try discriminate E; constructor.
  - injection E as E1 _. unfold Re.lit_match. cbv zeta.
    rewrite E1, N.eqb_refl. reflexivity.
  - apply IH. now injection E.
Qed.

Lemma match_here_lits (p m : pystr) (rest : Re.pattern) (s : pystr) :
  Forall2 (fun c d => Re.lit_match c d = true) p m ->
  Re.match_here (Re.lits p ++ rest) (m ++ s) = Re.match_here rest s.
Proof.
  induction 1 as [|c d p m Hcd _ IH]; [reflexivity|].
  simpl. now rewrite Hcd, IH.
Qed.

Lemma search_skip (p : Re.pattern) (a s : pystr) :
  Re.match_here p s = true -> Re.search p (a ++ s) = true.
Proof.
  intros H. induction a as [|c a IH]; simpl.
  - destruct s; simpl; rewrite H; reflexivity.
  - rewrite IH. apply orb_true_r.
Qed.

(** An unanchored literal pattern is found wherever the text spells it. *)
Lemma search_literal (p m a b : pystr) :
  spells p m -> Re.search (Re.lits p) (a ++ m ++ b) = true.
Proof.
  intros H. apply search_skip.
  rewrite <- (app_nil_r (Re.lits p)).
  now rewrite (match_here_lits p m [] b (spells_lit_match p m H)).
Qed.

(** A literal pattern anchored with [$] is found where the text ends in
    it. *)
Lemma search_literal_at_end (p m a : pystr) :
  spells p m -> Re.search (Re.lits p ++ [Re.Eol]) (a ++ m) = true.
Proof.
  intros H. apply search_skip.
  rewrite <- (app_nil_r m) at 1.
  now rewrite (match_here_lits p m [Re.Eol] [] (spells_lit_match p m H)).
Qed.

End ReFacts.

Lemma regional_pattern_found (p : Re.pattern) (s : pystr) :
  In p regional_patterns -> Re.search p s = true ->
  str_contains_regional (Str s) = true.
Proof.
  intros Hp Hs. unfold str_contains_regional.
  apply existsb_exists. now exists p.
Qed.

Lemma filter_individual_countries_In {A} (r : row A) (df : frame A) :
  In r (fst (filter_individual_countries df))
  <-> In r df /\ str_contains_regional (Country r) = false.
Proof.
  unfold filter_individual_countries. cbv zeta. unfold fst.
  rewrite filter_In, negb_true_iff. reflexivity.
Qed.

(** X2.  The pattern [America] is not anchored: every name that contains
    the word, in any letter case and at any place, is filtered out as a
    regional aggregate. *)
Theorem america_anywhere_is_filtered {A} (a m b : pystr) (x : A)
    (df : frame A) :
  ReFacts.spells (u "America") m ->
  ~ In (mkRow (Str (a ++ m ++ b)) x) (fst (filter_individual_countries df)).
Proof.
  intros Hm Hin.
  apply filter_individual_countries_In in Hin as [_ Hkeep].
  unfold Country in Hkeep.
  rewrite (regional_pattern_found (Re.lits (u "America"))) in Hkeep;
    [discriminate| |now apply ReFacts.search_literal].
  unfold regional_patterns. do 4 right. now left.
Qed.

Lemma america_anywhere_witness :
  ~ In (mkRow (Str (u "AMERICAN Samoa")) tt)
       (fst (filter_individual_countries
               [mkRow (Str (u "AMERICAN Samoa")) tt;
                mkRow (Str (u "Samoa")) tt])).
Proof.
  apply (america_anywhere_is_filtered [] (u "AMERICA") (u "N Samoa")).
  reflexivity.
Defined.

(** X3.  The patterns [Africa$], [Asia$] and [Europe$] are anchored at the
    end only: every name that ends in one of the three words, in any
    letter case, is filtered out, the name of a country such as
    "South Africa" included. *)
Theorem continent_suffix_is_filtered {A} (a m : pystr) (x : A)
    (df : frame A) :
  ReFacts.spells (u "Africa") m \/ ReFacts.spells (u "Asia") m
  \/ ReFacts.spells (u "Europe") m ->
  ~ In (mkRow (Str (a ++ m)) x) (fst (filter_individual_countries df)).
Proof.
  intros Hm Hin.
  apply filter_individual_countries_In in Hin as [_ Hkeep].
  unfold Country in Hkeep.
  assert (E : str_contains_regional (Str (a ++ m)) = true).
  { destruct Hm as [Hm|[Hm|Hm]].
    - apply (regional_pattern_found (Re.lits (u "Africa") ++ [Re.Eol]));
        [|now apply ReFacts.search_literal_at_end].
      unfold regional_patterns. do 1 right. now left.
    - apply (regional_pattern_found (Re.lits (u "Asia") ++ [Re.Eol]));
        [|now apply ReFacts.search_literal_at_end].
      unfold regional_patterns. do 2 right. now left.
    - apply (regional_pattern_found (Re.lits (u "Europe") ++ [Re.Eol]));
        [|now apply ReFacts.search_literal_at_end].
      unfold regional_patterns. do 3 right. now left. }
  rewrite E in Hkeep. discriminate.
Qed.

Lemma continent_suffix_witness :
  ~ In (mkRow (Str (u "South Africa")) tt)
       (fst (filter_individual_countries
               [mkRow (Str (u "South Africa")) tt;
                mkRow (Str (u "Central African Republic")) tt])).
Proof.
  apply (continent_suffix_is_filtered (u "South ") (u "Africa")).
  left. reflexivity.
Defined.

(** ** The merged table *)

(** The [Country] column of the merged table. *)
Definition merged_keys {T} (m : merged T) : list cell :=
  match m with
  | With_births df => keys df
  | Without_births df => keys df
  end.

(** A name is clean when it is a string without outer whitespace that
    matches no regional pattern. *)
Definition clean_name (c : cell) : Prop :=
  exists s, c = Str s /\ PyStr.strip s = s
            /\ str_contains_regional (Str s) = false.

Lemma merge_keys_left {A B} (left : frame A) (right : frame B) (k : cell) :
  In k (keys (merge left right)) -> In k (keys left).
Proof.
  unfold keys. intros Hk. apply in_map_iff in Hk as (x & <- & Hx).
  apply in_merge in Hx as (l & r & Hl & _ & _ & ->). simpl.
  now apply in_map.
Qed.

Lemma standardize_name_on_cases (p : pandas) (mapping : dict) (c : cell) :
  (p = From_3 /\ c = NaN /\ standardize_name_on p mapping c = NaN)
  \/ standardize_name_on p mapping c = standardize_name mapping c.
Proof.
  destruct p; [right; apply standardize_name_on_before|].
  destruct c as [|s]; [left; now repeat split|right].
  unfold standardize_name_on, standardize_name, replace.
  now destruct (lookup mapping s).
Qed.

Lemma cleaned_on_keys {A} (p : pandas) (df : frame A) (k : cell) :
  In k (keys (cleaned_on p df)) ->
  clean_name k
  \/ (p = From_3 /\ k = NaN /\ exists r, In r df /\ Country r = NaN).
Proof.
  unfold keys, cleaned_on. intros Hk.
  apply in_map_iff in Hk as (r & <- & Hr).
  apply filter_individual_countries_In in Hr as [Hr Hkeep].
  unfold standardize_country_names_on in Hr.
  apply in_map_iff in Hr as (r0 & <- & Hr0). cbn [Country] in *.
  destruct (standardize_name_on_cases p create_country_mapping (Country r0))
    as [(-> & E0 & ->) | E].
  - right. repeat split. now exists r0.
  - left. rewrite E in *.
    destruct (standardize_name_trimmed create_country_mapping (Country r0))
      as (s & Es & Et).
    exists s. rewrite Es in *. repeat split; assumption.
Qed.

(** X4.  Every name in the [Country] column of the table that
    [merge_datasets] returns is either a string without outer whitespace
    that matches none of the regional patterns, or missing.  Before
    pandas 3 no name is missing.  From pandas 3 on a name is missing only
    if the mortality table has a row with a missing name, and it is
    missing whenever the three tables each have such a row. *)
Theorem merged_names_are_clean {T} (p : pandas)
    (U : frame (health_cols T)) (P : frame (option T))
    (M : frame mortality_cols) :
  Forall (fun k => clean_name k
                   \/ (p = From_3 /\ k = NaN
                       /\ exists m, In m M /\ Country m = NaN))
         (merged_keys (fst (merge_datasets_on p U P M)))
  /\ (p = Before_3 ->
      Forall clean_name (merged_keys (fst (merge_datasets_on p U P M))))
  /\ (p = From_3 ->
      (exists h, In h U /\ Country h = NaN) ->
      (exists b, In b P /\ Country b = NaN) ->
      (exists m, In m M /\ Country m = NaN) ->
      In NaN (merged_keys (fst (merge_datasets_on p U P M)))).
Proof.
  assert (Hall : forall k,
             In k (merged_keys (fst (merge_datasets_on p U P M))) ->
             In k (keys (cleaned_on p M))).
  { intros k Hk. rewrite merge_datasets_on_result in Hk.
    destruct (0 <? length (cleaned_on p P)); simpl in Hk.
    - now apply merge_keys_left, merge_keys_left in Hk.
    - now apply merge_keys_left in Hk. }
  split; [|split].
  - apply Forall_forall. intros k Hk.
    apply (cleaned_on_keys p M k), Hall, Hk.
  - intros ->. apply Forall_forall. intros k Hk.
    destruct (cleaned_on_keys Before_3 M k (Hall k Hk)) as [H | (H & _)];
      [exact H | discriminate H].
  - intros -> (h & Hh & Eh) (b & Hb & Eb) (m & Hm & Em).
    pose proof (cleaned_on_keeps_null_row From_3 U h Hh Eh) as Ch.
    pose proof (cleaned_on_keeps_null_row From_3 P b Hb Eb) as Cb.
    pose proof (cleaned_on_keeps_null_row From_3 M m Hm Em) as Cm.
    rewrite merge_datasets_on_result.
    destruct (cleaned_on From_3 P) as [|p0 pc] eqn:E; [destruct Cb|].
    simpl Nat.ltb. cbv iota. cbn [merged_keys]. unfold keys.
    apply in_map_iff.
    exists (mkRow NaN (data m, data h, data b)). split; [reflexivity|].
    apply in_merge.
    exists (mkRow NaN (data m, data h)), (mkRow NaN (data b)).
    repeat split; [|exact Cb].
    apply in_merge.
    exists (mkRow NaN (data m)), (mkRow NaN (data h)).
    repeat split; assumption.
Qed.

Lemma merged_names_witness :
  let h := mkRow NaN no_health in
  let b := mkRow NaN (Some 7%Q) in
  let m := mkRow NaN unknown_status in
  In NaN (merged_keys (fst (merge_datasets_on From_3 [h] [b] [m])))
  /\ Forall clean_name
            (merged_keys (fst (merge_datasets_on Before_3 [h] [b] [m]))).
Proof.
  intros h b m. split.
  - apply (proj2 (proj2 (merged_names_are_clean From_3 [h] [b] [m]))
             eq_refl).
    + exists h. split; [now left | reflexivity].
    + exists b. split; [now left | reflexivity].
    + exists m. split; [now left | reflexivity].
  - apply (proj1 (proj2 (merged_names_are_clean Before_3 [h] [b] [m]))
             eq_refl).
Defined.

(** X5.  When the population join takes place, the rows of the merged
    table are exactly the combinations of a mortality row, a health row
    and a population row of the cleaned tables that carry the same name. *)
Theorem merged_rows_are_three_way_matches {T}
    (U : frame (health_cols T)) (P : frame (option T))
    (M : frame mortality_cols)
    (df : frame (mortality_cols * health_cols T * option T)) :
  fst (merge_datasets U P M) = With_births df ->
  forall x,
    In x df <->
    exists m h p,
      In m (mortality_clean M) /\ In h (unicef_clean U)
      /\ In p (population_clean P)
      /\ Country m = Country h /\ Country m = Country p
      /\ x = mkRow (Country m) (data m, data h, data p).
Proof.
  rewrite merge_datasets_result.
  destruct (0 <? length (population_clean P)); [|discriminate].
  intros [= <-] x. rewrite in_merge. split.
  - intros (mh & p & Hmh & Hp & E & ->).
    apply in_merge in Hmh as (m & h & Hm & Hh & E' & ->). simpl in *.
    now exists m, h, p.
  - intros (m & h & p & Hm & Hh & Hp & E1 & E2 & ->).
    exists (mkRow (Country m) (data m, data h)), p.
    repeat split; [|exact Hp|exact E2].
    apply in_merge. now exists m, h.
Qed.

Lemma merged_rows_witness :
  let U := [mkRow (Str (u "Burma")) no_health] in
  let P := [mkRow (Str (u " Myanmar")) (Some 7%Q)] in
  let M := [mkRow (Str (u "Myanmar")) unknown_status] in
  exists m h p,
    In m (mortality_clean M) /\ In h (unicef_clean U)
    /\ In p (population_clean P)
    /\ Country m = Country h /\ Country m = Country p
    /\ mkRow (Str (u "Myanmar")) (unknown_status, no_health, Some 7%Q)
       = mkRow (Country m) (data m, data h, data p).
Proof.
  intros U P M.
  apply (proj1 (merged_rows_are_three_way_matches U P M
                  [mkRow (Str (u "Myanmar"))
                         (unknown_status, no_health, Some 7%Q)]
                  eq_refl _)).
  now left.
Defined.

(** X7.  An empty health table or an empty mortality table leaves the
    merged table without rows, whatever the other tables hold. *)
Theorem merge_datasets_empty_input {T}
    (U : frame (health_cols T)) (P : frame (option T))
    (M : frame mortality_cols) :
  merged_len (fst (merge_datasets [] P M)) = 0
  /\ merged_len (fst (merge_datasets U P [])) = 0.
Proof.
  rewrite !merge_datasets_result. split.
  - change (unicef_clean (T := T) []) with (@nil (row (health_cols T))).
    rewrite merge_nil_r. now destruct (0 <? _).
  - change (mortality_clean []) with (@nil (row mortality_cols)).
    now destruct (0 <? _).
Qed.

(** ** The population cleaner *)

Lemma find_col_None (p : pystr -> bool) (cols : list pystr) :
  find_col p cols = None <-> forall c, In c cols -> p c = false.
Proof.
  induction cols as [|c cols IH]; simpl.
  - split; [intros _ c []|reflexivity].
  - destruct (p c) eqn:Ec.
    + split; [discriminate|]. intros H. rewrite (H c) in Ec; [discriminate|].
      now left.
    + destruct (find_col p cols) as [i|]; simpl.
      * split; [discriminate|]. intros H.
        assert (E : Some i = None)
          by (apply IH; intros c' Hc'; apply H; now right).
        discriminate E.
      * split; [|reflexivity]. intros _ c' [<-|Hc']; [exact Ec|].
        now apply IH.
Qed.


(** X8.  [clean_population_data] fails before it looks for the births
    column: with [IndexError] on a sheet without columns and with
    [KeyError] on a sheet with columns none of which is labelled "Year". *)
Theorem clean_population_data_errors {T} `{Num T}
    (to_numeric_str : pystr -> option T) (str_of_num : T -> pystr)
    (df : sheet T) :
  (columns df = [] ->
   clean_population_data to_numeric_str str_of_num df
   = (Raise IndexError, [Cleaning_population_data]))
  /\ (columns df <> [] -> ~ In (u "Year") (columns df) ->
      clean_population_data to_numeric_str str_of_num df
      = (Raise (KeyError (u "Year")), [Cleaning_population_data])).
Proof.
  unfold clean_population_data. split.
  - intros ->. reflexivity.
  - intros Hne HY.
    assert (Ec : exists j, find_country_col (columns df) = Some j).
    { unfold find_country_col.
      destruct (find_col (any_term_in _) (columns df)) as [j|];
        [now exists j|].
      destruct (columns df); [congruence|now exists 0]. }
    destruct Ec as [j ->].
    assert (Ey : find_col (PyStr.eqb (u "Year")) (columns df) = None).
    { apply find_col_None. intros c Hc. apply PyStrFacts.eqb_neq.
      intros <-. contradiction. }
    now rewrite Ey.
Qed.

Lemma clean_population_data_errors_witness :
  clean_population_data (fun _ => None) (fun _ => [])
    {| columns := [u "Location"; u "Time"; u "Births (thousands)"];
       rows := [[VStr (u "Kenya"); VNum 2022%Q; VNum 1500%Q]] |}
  = (Raise (KeyError (u "Year")), [Cleaning_population_data]).
Proof.
  apply (proj2 (clean_population_data_errors (fun _ => None) (fun _ => [])
                  {| columns := [u "Location"; u "Time";
                                 u "Births (thousands)"];
                     rows := [[VStr (u "Kenya"); VNum 2022%Q;
                               VNum 1500%Q]] |})).
  - discriminate.
  - vm_compute. intuition discriminate.
Defined.

(** X9.  The rows [clean_population_data] returns are exactly the rows
    built from a row of the sheet whose [Year] entry is 2022 and whose
    entry in the births column converts to a number: the returned row
    carries that sheet row's entry of the country column as its name and
    the converted number as its births.  The cleaner returns at most as
    many rows as the sheet has. *)
Theorem clean_population_data_rows {T} `{Num T}
    (to_numeric_str : pystr -> option T) (str_of_num : T -> pystr)
    (df : sheet T) (pop_data : frame (option T)) (out : list msg) :
  clean_population_data to_numeric_str str_of_num df
  = (Return pop_data, out) ->
  length pop_data <= length (rows df)
  /\ forall r,
       In r pop_data <->
       exists raw country_col year_col births_col b,
         In raw (rows df)
         /\ find_country_col (columns df) = Some country_col
         /\ find_col (PyStr.eqb (u "Year")) (columns df) = Some year_col
         /\ find_births_col (columns df) = Some births_col
         /\ is_2022 (entry year_col raw) = true
         /\ to_numeric to_numeric_str (entry births_col raw) = Some b
         /\ r = mkRow (name_cell str_of_num (entry country_col raw))
                      (Some b).
Proof.
  unfold clean_population_data.
  destruct (find_country_col (columns df)) as [cc|]; [|discriminate].
  destruct (find_col (PyStr.eqb (u "Year")) (columns df)) as [yc|];
    [|discriminate].
  destruct (find_births_col (columns df)) as [bc|].
  - intros [= <- _]. split.
    + etransitivity; [apply filter_length_le|].
      rewrite length_map. apply filter_length_le.
    + intros r. rewrite filter_In, in_map_iff. split.
      * intros [(raw & <- & Hraw) Hb].
        apply filter_In in Hraw as [Hraw Hy]. cbn [data] in Hb.
        destruct (to_numeric to_numeric_str (entry bc raw)) as [b|] eqn:Eb;
          [|discriminate].
        exists raw, cc, yc, bc, b. repeat split; assumption.
      * intros (raw & cc' & yc' & bc' & b & Hraw & [= <-] & [= <-]
                & [= <-] & Hy & Eb & ->).
        split; [|reflexivity].
        exists raw. rewrite Eb. split; [reflexivity|].
        apply filter_In. split; assumption.
  - intros [= <- _]. split; [simpl; lia|].
    intros r. split; [intros []|].
    intros (_ & _ & _ & bc & _ & _ & _ & _ & E & _). discriminate E.
Qed.

Definition sheet_with_births : sheet Q :=
  {| columns := [u "Region, subregion, country or area *"; u "Year";
                 u "Births (thousands)"];
     rows := [[VStr (u "Kenya"); VNum 2022%Q; VNum 1500%Q];
              [VStr (u "Kenya"); VNum 2023%Q; VNum 1510%Q];
              [VStr (u "Chad"); VNum 2022%Q; VStr (u "...")]] |}.

Lemma clean_population_data_rows_witness :
  exists raw country_col year_col births_col b,
    In raw (rows sheet_with_births)
    /\ find_country_col (columns sheet_with_births) = Some country_col
    /\ find_col (PyStr.eqb (u "Year")) (columns sheet_with_births)
       = Some year_col
    /\ find_births_col (columns sheet_with_births) = Some births_col
    /\ is_2022 (entry year_col raw) = true
    /\ to_numeric (fun _ => None) (entry births_col raw) = Some b
    /\ mkRow (Str (u "Kenya")) (Some 1500%Q)
       = mkRow (name_cell (fun _ => []) (entry country_col raw)) (Some b).
Proof.
  refine (proj1 (proj2 (clean_population_data_rows
                          (fun _ => None) (fun _ => [])
                          sheet_with_births
                          [mkRow (Str (u "Kenya")) (Some 1500%Q)]
                          [Cleaning_population_data;
                           Population_data_cleaned 1]
                          _)
                       (mkRow (Str (u "Kenya")) (Some 1500%Q))) _).
  - vm_compute. reflexivity.
  - now left.
Defined.




(** ** The mortality cleaner: [clean_mortality_classification] *)

(** A row of the sheet 'Sheet1', with the columns the cleaner uses. *)
Record mortality_raw := {
  OfficialName : cell;
  raw_ISO3Code : cell;
  Status_U5MR : cell
}.

(** The lines the cleaner prints. *)
Inductive mortality_msg :=
| Cleaning_mortality_classification
| Mortality_classification_cleaned (n : nat)
| On_track_countries (n : nat)
| Off_track_countries (n : nat).

(** [(column == label).sum()] *)
Definition count_status (label : pystr) (df : frame mortality_cols) : nat :=
  length (filter (fun r => cell_eqb (Mortality_Status_Binary (data r))
                                    (Str label)) df).

Definition clean_mortality_classification (df : list mortality_raw)
  : frame mortality_cols * list mortality_msg :=
  let mortality_data :=
    map (fun r =>
           mkRow (OfficialName r)
                 {| ISO3Code := raw_ISO3Code r;
                    Mortality_Status_Binary :=
                      classify_status (Status_U5MR r) |})
        df in
  (mortality_data,
   [Cleaning_mortality_classification;
    Mortality_classification_cleaned (length mortality_data);
    On_track_countries (count_status on_track mortality_data);
    Off_track_countries (count_status off_track mortality_data)]).

(** The rows whose raw status is missing. *)
Definition missing_status (df : list mortality_raw) : nat :=
  length (filter (fun r => isna (Status_U5MR r)) df).

Lemma classify_status_range (status : cell) :
  (status = NaN /\ classify_status status = NaN)
  \/ (status <> NaN /\ classify_status status = Str on_track)
  \/ (status <> NaN /\ classify_status status = Str off_track).
Proof.
  destruct status as [|s]; [now left|right].
  unfold classify_status. simpl isna. cbv iota zeta.
  destruct (existsb _ _); [left; split; [discriminate|reflexivity]|].
  right. split; [discriminate|]. now destruct (PyStr.contains _ _).
Qed.

(** X11.  [clean_mortality_classification] keeps every row, in order and
    with its name and code, labels each row on-track, off-track or
    missing, and the two counts it prints add up to the number of rows
    whose raw status is not missing. *)
Theorem mortality_counts_partition (df : list mortality_raw) :
  let '(mortality_data, out) := clean_mortality_classification df in
  map Country mortality_data = map OfficialName df
  /\ map (fun r => ISO3Code (data r)) mortality_data = map raw_ISO3Code df
  /\ Forall (fun r => Mortality_Status_Binary (data r) = NaN
                      \/ Mortality_Status_Binary (data r) = Str on_track
                      \/ Mortality_Status_Binary (data r) = Str off_track)
            mortality_data
  /\ exists on off,
       out = [Cleaning_mortality_classification;
              Mortality_classification_cleaned (length df);
              On_track_countries on;
              Off_track_countries off]
       /\ on + off + missing_status df = length df.
Proof.
  unfold clean_mortality_classification. cbv zeta.
  split; [now rewrite map_map|]. split; [now rewrite map_map|]. split.
  - apply Forall_forall. intros r Hr. apply in_map_iff in Hr as (r0 & <- & _).
    simpl. destruct (classify_status_range (Status_U5MR r0))
      as [[_ E]|[[_ E]|[_ E]]]; rewrite E; auto.
  - eexists. eexists. rewrite length_map. split; [reflexivity|].
    unfold count_status, missing_status.
    induction df as [|r df IH]; [reflexivity|]. simpl.
    destruct (classify_status_range (Status_U5MR r))
      as [[E1 E2]|[[E1 E2]|[E1 E2]]]; rewrite E2.
    + rewrite E1. simpl. lia.
    + destruct (Status_U5MR r); [congruence|]. simpl. lia.
    + destruct (Status_U5MR r); [congruence|]. simpl. lia.
Qed.

(** ** The reduced health frame *)

Section RecentFacts.

Context {V : Type}.

Lemma groupby_tail1_incl (l : list (@labelled V)) (x : @labelled V) :
  In x (groupby_tail1 l) -> In x l /\ group_key x <> None.
Proof.
  induction l as [|y l IH]; simpl; [intros []|].
  destruct (group_key y) as [k|] eqn:Ey.
  - destruct (existsb (in_group k) l).
    + intros Hx. destruct (IH Hx). auto.
    + intros [<-|Hx]; [split; [now left|congruence]|].
      destruct (IH Hx). auto.
  - intros Hx. destruct (IH Hx). auto.
Qed.

Lemma df_labelled_In (df : list (unicef_row V)) (x : @labelled V) :
  In x (df_labelled df) <->
  In (fst x) df /\ between_2018_2022 (fst x) = true
  /\ (anc4_mask (fst x) || sba_mask (fst x)) = true
  /\ snd x = Indicator_Clean (fst x).
Proof.
  unfold df_labelled. rewrite in_map_iff. split.
  - intros (r & <- & Hr). apply filter_In in Hr as [Hr Hm].
    apply filter_In in Hr as [Hr Hy]. simpl. auto.
  - intros (Hr & Hy & Hm & El). exists (fst x). split.
    + destruct x as [r l]. simpl in *. now subst l.
    + apply filter_In. split; [|exact Hm]. apply filter_In. now split.
Qed.

(** X12.  Whatever sort by year is used, every row of [df_recent] is a row
    of the sheet with a year from 2018 to 2022, a country that is not
    missing, and an indicator that one of the two masks accepts. *)
Theorem df_recent_rows_in_range
    (sort_values : list (@labelled V) -> list (@labelled V))
    (df : list (unicef_row V)) :
  sorts_by_year sort_values ->
  Forall (fun x =>
            In (fst x) df
            /\ (2018 <= TIME_PERIOD (fst x) <= 2022)%Z
            /\ Geographic_area (fst x) <> NaN
            /\ (anc4_mask (fst x) || sba_mask (fst x)) = true)
         (df_recent sort_values df).
Proof.
  intros Hsort. apply Forall_forall. intros x Hx. unfold df_recent in Hx.
  apply groupby_tail1_incl in Hx as [Hx Hk].
  destruct (Hsort (df_labelled df)) as [Hperm _].
  apply (Permutation_in x (Permutation_sym Hperm)) in Hx.
  apply df_labelled_In in Hx as (Hin & Hy & Hm & _).
  split; [exact Hin|]. split.
  - unfold between_2018_2022 in Hy. apply andb_true_iff in Hy as [H1 H2].
    apply Z.leb_le in H1, H2. lia.
  - split; [|exact Hm]. intros E. apply Hk. unfold group_key. now rewrite E.
Qed.

(** X13.  [df_recent] never holds two rows of one (country, simplified
    indicator) pair, whatever function is used to order the frame. *)
Theorem df_recent_one_row_per_group
    (sort_values : list (@labelled V) -> list (@labelled V))
    (df : list (unicef_row V)) :
  NoDup (map group_key (df_recent sort_values df)).
Proof.
  unfold df_recent. generalize (sort_values (df_labelled df)) as l.
  induction l as [|x l IH]; simpl; [constructor|].
  destruct (group_key x) as [k|] eqn:Ex; [|exact IH].
  destruct (existsb (in_group k) l) eqn:El; [exact IH|].
  simpl. rewrite Ex. constructor; [|exact IH].
  intros Hin. apply in_map_iff in Hin as (y & Ey & Hy).
  apply groupby_tail1_incl in Hy as [Hy _].
  assert (E : existsb (in_group k) l = true).
  { apply existsb_exists. exists y. split; [exact Hy|].
    now apply in_group_iff. }
  congruence.
Qed.

End RecentFacts.

Lemma df_recent_rows_witness :
  Forall (fun x =>
            In (fst x) [kenya_2020 (61 # 1); kenya_2020 (58 # 1)]
            /\ (2018 <= TIME_PERIOD (fst x) <= 2022)%Z
            /\ Geographic_area (fst x) <> NaN
            /\ (anc4_mask (fst x) || sba_mask (fst x)) = true)
         (df_recent stable_sort_values
                    [kenya_2020 (61 # 1); kenya_2020 (58 # 1)]).
Proof.
  apply df_recent_rows_in_range. apply stable_sort_values_sorts.
Defined.

(** The text of the indicator of a row. *)
Definition indicator_text {V} (r : unicef_row V) : pystr :=
  astype_str (Indicator r).

Lemma contains_startswith_trans (p q s : pystr) :
  PyStr.startswith p q = true -> PyStr.startswith q s = true ->
  PyStr.startswith p s = true.
Proof.
  revert q s. induction p as [|c p IH]; intros q s; [reflexivity|].
  destruct q as [|d q]; [discriminate|]. destruct s as [|e s]; simpl;
    [intros _ H; discriminate H|].
  intros H1 H2. apply andb_true_iff in H1 as [E1 H1].
  apply andb_true_iff in H2 as [E2 H2].
  apply N.eqb_eq in E1, E2. subst. rewrite N.eqb_refl. simpl.
  now apply (IH q s).
Qed.

Lemma contains_prefix (p q s : pystr) :
  PyStr.startswith p q = true -> PyStr.contains q s = true ->
  PyStr.contains p s = true.
Proof.
  intros Hpq. induction s as [|c s IH]; simpl.
  - rewrite orb_false_r. intros H.
    now rewrite (contains_startswith_trans p q [] Hpq H).
  - intros H. apply orb_true_iff in H as [H|H].
    + now rewrite (contains_startswith_trans p q (c :: s) Hpq H).
    + rewrite (IH H). apply orb_true_r.
Qed.

(** X14.  A row kept by the indicator masks is named ANC4 exactly when its
    indicator text contains "Antenatal care 4+" with the plus sign, and SBA
    otherwise.  The ANC4 mask, a regular expression, also accepts a text
    that contains "Antenatal care 4" without the plus sign: such a row is
    kept and named SBA although it is no skilled-birth-attendant
    indicator. *)
Theorem indicator_labels {V} (df : list (unicef_row V)) :
  Forall (fun x =>
            (snd x = IndANC4 <->
             PyStr.contains (u "Antenatal care 4+") (indicator_text (fst x))
             = true)
            /\ (snd x = IndANC4 -> anc4_mask (fst x) = true)
            /\ (snd x = IndSBA -> sba_mask (fst x) = false ->
                PyStr.contains (u "Antenatal care 4")
                               (indicator_text (fst x)) = true
                /\ PyStr.contains (u "Antenatal care 4+")
                                  (indicator_text (fst x)) = false))
         (df_labelled df).
Proof.
  apply Forall_forall. intros [r l] Hx.
  apply df_labelled_In in Hx as (_ & _ & Hm & El). simpl in *. subst l.
  unfold Indicator_Clean, indicator_text in *.
  assert (Hplus : PyStr.contains (u "Antenatal care 4+")
                                 (astype_str (Indicator r)) = true ->
                  anc4_mask r = true).
  { unfold anc4_mask. destruct (Indicator r) as [|s]; simpl.
    - intros E. vm_compute in E. discriminate E.
    - apply contains_prefix. reflexivity. }
  destruct (PyStr.contains (u "Antenatal care 4+")
                           (astype_str (Indicator r))) eqn:E.
  - split; [tauto|]. split; [auto|discriminate].
  - split; [split; discriminate|]. split; [discriminate|].
    intros _ Hs. rewrite Hs, orb_false_r in Hm. split; [|reflexivity].
    unfold anc4_mask in Hm. destruct (Indicator r); [discriminate|exact Hm].
Qed.

Lemma indicator_labels_witness :
  let r := {| Geographic_area := Str (u "Kenya");
              Indicator := Str (u "Antenatal care 4 visits");
              TIME_PERIOD := 2020;
              OBS_VALUE := tt |} in
  df_labelled [r] = [(r, IndSBA)]
  /\ PyStr.contains (u "Antenatal care 4+") (indicator_text r) = false.
Proof.
  intros r. split; [reflexivity|].
  pose proof (indicator_labels [r]) as H.
  change (df_labelled [r]) with [(r, IndSBA)] in H.
  apply Forall_inv in H. destruct H as (_ & _ & H).
  now destruct (H eq_refl eq_refl).
Defined.

(** ** More on the aggregator *)

Section CoverageOutcomes.

Context {T : Type} `{Num T}.

Lemma subset_app (df extra : list (@merged_row T)) ind status :
  subset (df ++ extra) ind status
  = subset df ind status ++ subset extra ind status.
Proof. unfold subset. apply filter_app. Qed.

(** The function reads its table through [subset] only. *)
Lemma calculate_depends_on_subset (df df' : list (@merged_row T))
      ind status :
  subset df ind status = subset df' ind status ->
  calculate_population_weighted_coverage df ind status
  = calculate_population_weighted_coverage df' ind status.
Proof.
  intros E. unfold calculate_population_weighted_coverage. cbv zeta.
  now rewrite E.
Qed.

Lemma calculate_raise_inv (df : list (@merged_row T)) ind status (e : exn) :
  calculate_population_weighted_coverage df ind status = Raise e ->
  e = ZeroDivisionError
  /\ subset df ind status <> []
  /\ eqb (total_weight (subset df ind status)) zero = true.
Proof.
  unfold calculate_population_weighted_coverage. cbv zeta.
  destruct (subset df ind status) as [|r g] eqn:Eg; [discriminate|].
  simpl Nat.eqb. cbv iota. rewrite <- Eg, average_of_subset.
  destruct (eqb (total_weight (subset df ind status)) zero);
    [|discriminate].
  intros [= <-]. rewrite Eg. repeat split. discriminate.
Qed.

(** [calculate_population_weighted_coverage] on the table
    [merge_datasets] returns.  The mask reads the columns
    [Mortality_Status_Binary], the indicator and [Births_2022] in this
    order; the table always has the first two, and the look-up of
    [Births_2022] raises [KeyError] when the population join was skipped,
    whatever the rows are. *)
Definition calculate_on_merged (m : merged T) (ind : indicator)
    (status : pystr) : outcome (summary T) :=
  match m with
  | With_births df => calculate_population_weighted_coverage df ind status
  | Without_births _ => Raise (KeyError (u "Births_2022"))
  end.

(** X15.  On a table [merge_datasets] returns and for the indicators
    ['ANC4'] and ['SBA'], [calculate_population_weighted_coverage] raises
    in exactly two cases: [KeyError] for [Births_2022] when the table
    lacks the births column, and [ZeroDivisionError] when the table has
    the column and the group is non-empty with absolute weights that sum
    to zero.  In every other case it returns a summary. *)
Theorem calculate_on_merged_raises
    (m : merged T) (ind : indicator) (status : pystr) (e : exn) :
  calculate_on_merged m ind status = Raise e
  <-> match m with
      | Without_births _ => e = KeyError (u "Births_2022")
      | With_births df =>
          e = ZeroDivisionError
          /\ subset df ind status <> []
          /\ eqb (total_weight (subset df ind status)) zero = true
      end.
Proof.
  destruct m as [df|df]; cbn [calculate_on_merged].
  - split; [apply calculate_raise_inv|].
    intros (-> & Hne & Hw).
    unfold calculate_population_weighted_coverage. cbv zeta.
    now rewrite (nonempty_length _ Hne), average_of_subset, Hw.
  - split; [intros [= <-]|intros ->]; reflexivity.
Qed.

(** X16.  Rows of another status, and rows whose indicator value or births
    are missing, never influence a summary: adding them before or after
    the table leaves the result of the function unchanged. *)
Theorem rows_outside_group_are_ignored
    (df extra : list (@merged_row T)) (ind : indicator) (status : pystr) :
  subset extra ind status = [] ->
  calculate_population_weighted_coverage (df ++ extra) ind status
  = calculate_population_weighted_coverage df ind status
  /\ calculate_population_weighted_coverage (extra ++ df) ind status
     = calculate_population_weighted_coverage df ind status.
Proof.
  intros E. split; apply calculate_depends_on_subset;
    rewrite subset_app, E; [apply app_nil_r|reflexivity].
Qed.

End CoverageOutcomes.

Lemma calculate_on_merged_raises_witness :
  calculate_on_merged
    (With_births [merged_of (u "A") on_track (Some 50%float) None
                            (Some 0%float)])
    IndANC4 on_track
  = Raise ZeroDivisionError
  /\ calculate_on_merged
       (Without_births
          [mkRow (Str (u "A"))
                 ({| ISO3Code := NaN; Mortality_Status_Binary := Str on_track |},
                  {| ANC4 := Some 50%float; SBA := None |})])
       IndANC4 on_track
     = Raise (KeyError (u "Births_2022")).
Proof.
  split.
  - apply (proj2 (calculate_on_merged_raises
                    (With_births [merged_of (u "A") on_track (Some 50%float)
                                            None (Some 0%float)])
                    IndANC4 on_track ZeroDivisionError)).
    vm_compute. repeat split. discriminate.
  - apply (proj2 (calculate_on_merged_raises
                    (Without_births
                       [mkRow (Str (u "A"))
                              ({| ISO3Code := NaN;
                                  Mortality_Status_Binary := Str on_track |},
                               {| ANC4 := Some 50%float; SBA := None |})])
                    IndANC4 on_track (KeyError (u "Births_2022")))).
    reflexivity.
Defined.

Lemma rows_outside_group_witness :
  let df := [merged_of (u "A") on_track (Some 20%Q) None (Some 100%Q)] in
  let extra := [merged_of (u "B") off_track (Some 80%Q) None (Some 300%Q);
                merged_of (u "C") on_track None (Some 70%Q) (Some 50%Q);
                merged_of (u "D") on_track (Some 90%Q) None None] in
  calculate_population_weighted_coverage (df ++ extra) IndANC4 on_track
  = calculate_population_weighted_coverage df IndANC4 on_track
  /\ calculate_population_weighted_coverage (extra ++ df) IndANC4 on_track
     = calculate_population_weighted_coverage df IndANC4 on_track.
Proof.
  intros df extra. apply rows_outside_group_are_ignored. reflexivity.
Defined.

(** The summary of a non-empty group [g], written with the sums of the
    specification. *)
Definition group_summary {T} `{Num T} (ind : indicator) (status : pystr)
    (g : list (@merged_row T)) : summary T :=
  {| track_status := status;
     s_indicator := ind;
     n_countries := length g;
     total_births := Some (signed_total g);
     weighted_coverage := Some (div (weighted_sum ind g) (total_weight g));
     min_coverage := minimum (map (value_at ind) g);
     max_coverage := maximum (map (value_at ind) g);
     median_coverage := median (map (value_at ind) g);
     countries := map Country g |}.

Lemma calculate_nonempty {T} `{Num T} (df : list (@merged_row T)) ind status :
  subset df ind status <> [] ->
  eqb (total_weight (subset df ind status)) zero = false ->
  calculate_population_weighted_coverage df ind status
  = Return (group_summary ind status (subset df ind status)).
Proof.
  intros Hne Hw. unfold calculate_population_weighted_coverage. cbv zeta.
  rewrite (nonempty_length _ Hne), average_of_subset, Hw.
  unfold group_summary, signed_total.
  now rewrite subset_values, subset_births, sum_map.
Qed.

Lemma calculate_returns_group_summary {T} `{Num T}
      (df : list (@merged_row T)) ind status (s : summary T) :
  calculate_population_weighted_coverage df ind status = Return s ->
  subset df ind status <> [] ->
  eqb (total_weight (subset df ind status)) zero = false
  /\ s = group_summary ind status (subset df ind status).
Proof.
  intros Es Hne.
  destruct (eqb (total_weight (subset df ind status)) zero) eqn:Ew.
  - revert Es. unfold calculate_population_weighted_coverage. cbv zeta.
    now rewrite (nonempty_length _ Hne), average_of_subset, Ew.
  - rewrite (calculate_nonempty df ind status Hne Ew) in Es.
    now injection Es as <-.
Qed.

Section CoverageExactMore.

Local Open Scope Q_scope.

Lemma sumQ_nonneg (l : list Q) : Forall (fun w => 0 <= w) l -> 0 <= sumQ l.
Proof.
  induction 1 as [|w l Hw _ IH]; [unfold sumQ; simpl; lra|].
  rewrite sumQ_cons. lra.
Qed.

Lemma sumQ_zero_iff (l : list Q) :
  Forall (fun w => 0 <= w) l ->
  (sumQ l == 0 <-> Forall (fun w => w == 0) l).
Proof.
  induction 1 as [|w l Hw Hl IH].
  - split; [constructor|reflexivity].
  - rewrite sumQ_cons. pose proof (sumQ_nonneg l Hl) as Hs. split.
    + intros E. constructor; [lra|]. apply IH. lra.
    + intros Hz. inversion Hz as [|? ? Hw0 Hl0]; subst.
      apply IH in Hl0. lra.
Qed.

Lemma Qabs_zero_iff (x : Q) : Qabs x == 0 <-> x == 0.
Proof.
  split.
  - apply Qabs_case; intros; lra.
  - intros E. rewrite E. reflexivity.
Qed.

Lemma total_weight_sumQ (g : list (@merged_row Q)) :
  total_weight g = sumQ (map (fun r => Qabs (births_at r)) g).
Proof. unfold total_weight. rewrite <- sum_map. reflexivity. Qed.

Lemma total_weight_zero_iff (g : list (@merged_row Q)) :
  total_weight g == 0 <-> Forall (fun r => births_at r == 0) g.
Proof.
  rewrite total_weight_sumQ, sumQ_zero_iff.
  - rewrite Forall_map, !Forall_forall.
    split; intros Hz r Hr; apply Qabs_zero_iff; now apply Hz.
  - rewrite <- (map_map births_at Qabs). apply map_Qabs_nonneg.
Qed.

Lemma eqb_zero_Q (x : Q) : eqb x zero = true <-> x == 0.
Proof. apply Qeq_bool_iff. Qed.

(** X17.  In exact arithmetic the function fails exactly on the non-empty
    groups in which every country has zero births; on every other table it
    returns a summary. *)
Theorem calculate_fails_iff_all_births_zero
    (df : list (@merged_row Q)) (ind : indicator) (status : pystr) :
  calculate_population_weighted_coverage df ind status
  = Raise ZeroDivisionError
  <-> subset df ind status <> []
      /\ Forall (fun r => births_at r == 0) (subset df ind status).
Proof.
  split.
  - intros E.
    assert (Hne : subset df ind status <> []).
    { intros E0. revert E.
      unfold calculate_population_weighted_coverage. cbv zeta.
      rewrite E0. discriminate. }
    split; [exact Hne|]. revert E.
    unfold calculate_population_weighted_coverage. cbv zeta.
    rewrite (nonempty_length _ Hne), average_of_subset.
    destruct (eqb (total_weight (subset df ind status)) zero) eqn:Ew;
      [|discriminate].
    intros _. now apply total_weight_zero_iff, eqb_zero_Q.
  - intros [Hne Hz]. unfold calculate_population_weighted_coverage. cbv zeta.
    rewrite (nonempty_length _ Hne), average_of_subset.
    apply total_weight_zero_iff, eqb_zero_Q in Hz. now rewrite Hz.
Qed.

Lemma calculate_fails_witness :
  calculate_population_weighted_coverage
    [merged_of (u "A") off_track (Some 40) None (Some 0);
     merged_of (u "B") off_track (Some 60) None (Some (0 # 5))]
    IndANC4 off_track
  = Raise ZeroDivisionError.
Proof.
  apply (proj2 (calculate_fails_iff_all_births_zero _ _ _)).
  split; [vm_compute; discriminate|].
  vm_compute. repeat constructor.
Defined.

Lemma In_fold_min2 (l : list Q) (x : Q) : In (fold_left min2 l x) (x :: l).
Proof.
  revert x. induction l as [|a l IH]; intros x; [now left|]. simpl.
  destruct (IH (min2 x a)) as [E|Hin]; [|right; now right].
  rewrite <- E. unfold min2. destruct (leb x a); [now left|right; now left].
Qed.

Lemma In_fold_max2 (l : list Q) (x : Q) : In (fold_left max2 l x) (x :: l).
Proof.
  revert x. induction l as [|a l IH]; intros x; [now left|]. simpl.
  destruct (IH (max2 x a)) as [E|Hin]; [|right; now right].
  rewrite <- E. unfold max2. destruct (leb x a); [right; now left|now left].
Qed.

Lemma minimum_In (l : list Q) (lo : Q) : minimum l = Some lo -> In lo l.
Proof.
  destruct l as [|x l]; [discriminate|]. intros [= <-]. apply In_fold_min2.
Qed.

Lemma maximum_In (l : list Q) (hi : Q) : maximum l = Some hi -> In hi l.
Proof.
  destruct l as [|x l]; [discriminate|]. intros [= <-]. apply In_fold_max2.
Qed.

(** X18.  In exact arithmetic the [min_coverage] and the [max_coverage] of
    a returned summary of a non-empty group are the indicator values of
    countries of the group, and no country of the group has a value below
    the one or above the other. *)
Theorem min_max_are_attained
    (df : list (@merged_row Q)) (ind : indicator) (status : pystr)
    (s : summary Q) :
  calculate_population_weighted_coverage df ind status = Return s ->
  subset df ind status <> [] ->
  exists lo hi rlo rhi,
    min_coverage s = Some lo /\ max_coverage s = Some hi
    /\ In rlo (subset df ind status) /\ indicator_of ind rlo = Some lo
    /\ In rhi (subset df ind status) /\ indicator_of ind rhi = Some hi
    /\ Forall (fun r => lo <= value_at ind r /\ value_at ind r <= hi)
              (subset df ind status).
Proof.
  intros Es Hne.
  destruct (calculate_returns_group_summary df ind status s Es Hne)
    as [_ ->].
  cbn [min_coverage max_coverage group_summary].
  set (g := subset df ind status) in *.
  assert (Hg : map (value_at ind) g <> []) by (now destruct g).
  destruct (minimum_nonempty _ Hg) as [lo Elo].
  destruct (maximum_nonempty _ Hg) as [hi Ehi].
  assert (Hval : forall r, In r g -> indicator_of ind r = Some (value_at ind r)).
  { intros r Hr. destruct (subset_In _ _ _ _ Hr) as (_ & _ & [v Ev] & _).
    unfold value_at. now rewrite Ev. }
  destruct (proj1 (in_map_iff _ _ _) (minimum_In _ _ Elo)) as (rlo & E1 & H1).
  destruct (proj1 (in_map_iff _ _ _) (maximum_In _ _ Ehi)) as (rhi & E2 & H2).
  exists lo, hi, rlo, rhi.
  repeat split; try assumption.
  - rewrite <- E1. now apply Hval.
  - rewrite <- E2. now apply Hval.
  - pose proof (minimum_le _ _ Elo) as Hlo.
    pose proof (maximum_ge _ _ Ehi) as Hhi.
    rewrite Forall_map in Hlo, Hhi. rewrite Forall_forall in *.
    intros r Hr. split; [now apply Hlo|now apply Hhi].
Qed.

End CoverageExactMore.

Lemma min_max_witness :
  let df := [merged_of (u "A") off_track (Some 20%Q) None (Some 100%Q);
             merged_of (u "B") off_track (Some 80%Q) None (Some 300%Q)] in
  exists lo hi rlo rhi,
    min_coverage (group_summary IndANC4 off_track df) = Some lo
    /\ max_coverage (group_summary IndANC4 off_track df) = Some hi
    /\ In rlo (subset df IndANC4 off_track)
    /\ indicator_of IndANC4 rlo = Some lo
    /\ In rhi (subset df IndANC4 off_track)
    /\ indicator_of IndANC4 rhi = Some hi
    /\ Forall (fun r => (lo <= value_at IndANC4 r)%Q
                        /\ (value_at IndANC4 r <= hi)%Q)
              (subset df IndANC4 off_track).
Proof.
  intros df.
  apply (min_max_are_attained df IndANC4 off_track).
  - vm_compute. reflexivity.
  - vm_compute. discriminate.
Defined.

Section MedianFacts.

Local Open Scope Q_scope.

Lemma insert_In (x y : Q) (l : list Q) :
  In y (insert x l) <-> y = x \/ In y l.
Proof.
  induction l as [|a l IH].
  - simpl. split; [intros [<-|[]]|intros [->|[]]]; now left.
  - change (insert x (a :: l))
      with (if leb x a then x :: a :: l else a :: insert x l).
    destruct (leb x a).
    + simpl. split; [intros [<-|H]|intros [->|H]]; auto.
    + simpl. rewrite IH.
      split; [intros [<-|[->|H]]|intros [->|[<-|H]]]; auto.
Qed.

Lemma sorted_In (y : Q) (l : list Q) : In y (sorted l) <-> In y l.
Proof.
  induction l as [|a l IH]; simpl; [tauto|].
  rewrite insert_In, IH.
  split; [intros [->|H]|intros [<-|H]]; auto.
Qed.

Lemma insert_length (x : Q) (l : list Q) :
  length (insert x l) = S (length l).
Proof.
  induction l as [|a l IH]; [reflexivity|].
  change (insert x (a :: l))
    with (if leb x a then x :: a :: l else a :: insert x l).
  destruct (leb x a); simpl; [reflexivity|now rewrite IH].
Qed.

Lemma sorted_length (l : list Q) : length (sorted l) = length l.
Proof.
  induction l as [|a l IH]; simpl; [reflexivity|].
  now rewrite insert_length, IH.
Qed.

Lemma nth_error_sorted_In (l : list Q) (i : nat) (a : Q) :
  nth_error (sorted l) i = Some a -> In a l.
Proof. intros E. apply sorted_In. eapply nth_error_In. exact E. Qed.

(** The median of a non-empty list exists and lies between any bounds of
    its elements. *)
Lemma median_between (lo hi : Q) (l : list Q) :
  l <> [] ->
  Forall (fun v => lo <= v /\ v <= hi) l ->
  exists m, median l = Some m /\ lo <= m /\ m <= hi.
Proof.
  intros Hne Hb. rewrite Forall_forall in Hb.
  unfold median. cbv zeta.
  assert (Hlen : (0 < length (sorted l))%nat).
  { rewrite sorted_length. destruct l; [congruence|simpl; lia]. }
  remember (length (sorted l)) as n eqn:En.
  destruct n as [|n']; [lia|].
  assert (Hhalf : (S n' / 2 < S n')%nat) by (apply Nat.div_lt; lia).
  destruct (nth_error (sorted l) (S n' / 2)) as [b|] eqn:Eb.
  2:{ apply nth_error_None in Eb. lia. }
  pose proof (Hb b (nth_error_sorted_In l _ b Eb)) as [Hb1 Hb2].
  destruct (Nat.even (S n')).
  - destruct (nth_error (sorted l) (S n' / 2 - 1)) as [a|] eqn:Ea.
    2:{ apply nth_error_None in Ea. lia. }
    pose proof (Hb a (nth_error_sorted_In l _ a Ea)) as [Ha1 Ha2].
    eexists. split; [reflexivity|].
    change (div (add a b) (of_Z 2)) with ((a + b) / 2).
    split.
    + apply Qle_shift_div_l; [reflexivity|]. lra.
    + apply Qle_shift_div_r; [reflexivity|]. lra.
  - exists b. auto.
Qed.

(** X19.  In exact arithmetic the median of a returned summary of a
    non-empty group exists and lies between the summary's minimum and
    maximum. *)
Theorem median_within_range
    (df : list (@merged_row Q)) (ind : indicator) (status : pystr)
    (s : summary Q) :
  calculate_population_weighted_coverage df ind status = Return s ->
  subset df ind status <> [] ->
  exists lo m hi,
    min_coverage s = Some lo /\ median_coverage s = Some m
    /\ max_coverage s = Some hi /\ lo <= m /\ m <= hi.
Proof.
  intros Es Hne.
  destruct (calculate_returns_group_summary df ind status s Es Hne)
    as [_ ->].
  cbn [min_coverage max_coverage median_coverage group_summary].
  set (g := subset df ind status) in *.
  assert (Hg : map (value_at ind) g <> []) by (now destruct g).
  destruct (minimum_nonempty _ Hg) as [lo Elo].
  destruct (maximum_nonempty _ Hg) as [hi Ehi].
  destruct (median_between lo hi (map (value_at ind) g) Hg)
    as (m & Em & H1 & H2).
  - pose proof (minimum_le _ _ Elo) as Hlo.
    pose proof (maximum_ge _ _ Ehi) as Hhi.
    rewrite Forall_forall in *. intros v Hv. split; auto.
  - now exists lo, m, hi.
Qed.

End MedianFacts.

Lemma median_within_range_witness :
  let df := [merged_of (u "A") off_track (Some 20%Q) None (Some 100%Q);
             merged_of (u "B") off_track (Some 80%Q) None (Some 300%Q);
             merged_of (u "C") off_track (Some 35%Q) None (Some 50%Q);
             merged_of (u "D") off_track (Some 55%Q) None (Some 70%Q)] in
  exists lo m hi,
    min_coverage (group_summary IndANC4 off_track df) = Some lo
    /\ median_coverage (group_summary IndANC4 off_track df) = Some m
    /\ max_coverage (group_summary IndANC4 off_track df) = Some hi
    /\ (lo <= m)%Q /\ (m <= hi)%Q.
Proof.
  intros df. apply (median_within_range df IndANC4 off_track).
  - vm_compute. reflexivity.
  - vm_compute. discriminate.
Defined.

Lemma empty_group_summary_eq {T} `{Num T} (df : list (@merged_row T))
      ind status :
  subset df ind status = [] ->
  calculate_population_weighted_coverage df ind status
  = Return {| track_status := status;
              s_indicator := ind;
              n_countries := 0;
              total_births := Some zero;
              weighted_coverage := None;
              min_coverage := None;
              max_coverage := None;
              median_coverage := None;
              countries := [] |}.
Proof.
  intros E. unfold calculate_population_weighted_coverage. now rewrite E.
Qed.

Lemma calculate_zero_weight {T} `{Num T} (df : list (@merged_row T))
      ind status :
  subset df ind status <> [] ->
  eqb (total_weight (subset df ind status)) zero = true ->
  calculate_population_weighted_coverage df ind status
  = Raise ZeroDivisionError.
Proof.
  intros Hne Hw. unfold calculate_population_weighted_coverage. cbv zeta.
  now rewrite (nonempty_length _ Hne), average_of_subset, Hw.
Qed.

(** *** The sign of the births *)

(** The row with the sign of its births reversed. *)
Definition negate_births (r : @merged_row Q) : @merged_row Q :=
  mkRow (Country r) (fst (data r), option_map Qopp (snd (data r))).

Section SignFacts.

Local Open Scope Q_scope.

Lemma Qabs_Qopp (x : Q) : Qabs (- x) = Qabs x.
Proof. destruct x as [n d]. simpl. f_equal. apply Z.abs_opp. Qed.

Lemma sigma_map (f : @merged_row Q -> Q) (h : @merged_row Q -> @merged_row Q)
      (g : list (@merged_row Q)) :
  sigma f (map h g) = sigma (fun r => f (h r)) g.
Proof.
  unfold sigma. generalize (@zero Q _).
  induction g as [|r g IH]; intros a; simpl; [reflexivity|apply IH].
Qed.

Lemma sigma_ext (f f' : @merged_row Q -> Q) (g : list (@merged_row Q)) :
  (forall r, f r = f' r) -> sigma f g = sigma f' g.
Proof.
  intros E. unfold sigma. generalize (@zero Q _).
  induction g as [|r g IH]; intros a; simpl; [reflexivity|].
  now rewrite E, IH.
Qed.

Lemma births_at_negate (r : @merged_row Q) :
  births_at (negate_births r) = - births_at r.
Proof.
  unfold births_at, births_of, negate_births. simpl.
  destruct (snd (data r)); reflexivity.
Qed.

Lemma value_at_negate ind (r : @merged_row Q) :
  value_at ind (negate_births r) = value_at ind r.
Proof. destruct ind; reflexivity. Qed.

Lemma filter_map_comm {X} (f : X -> bool) (h : X -> X) (l : list X) :
  (forall x, f (h x) = f x) -> filter f (map h l) = map h (filter f l).
Proof.
  intros E. induction l as [|x l IH]; [reflexivity|].
  cbn [map filter]. rewrite E. destruct (f x); cbn [map]; now rewrite IH.
Qed.

Lemma subset_negate (df : list (@merged_row Q)) ind status :
  subset (map negate_births df) ind status
  = map negate_births (subset df ind status).
Proof.
  unfold subset. apply filter_map_comm. intros r.
  unfold status_of, births_of, negate_births. simpl.
  assert (Ei : indicator_of ind
                 {| Country := Country r;
                    data := (fst (data r), option_map Qopp (snd (data r))) |}
               = indicator_of ind r) by (now destruct ind).
  rewrite Ei. now destruct (snd (data r)).
Qed.

Lemma total_weight_negate (g : list (@merged_row Q)) :
  total_weight (map negate_births g) = total_weight g.
Proof.
  unfold total_weight. rewrite sigma_map. apply sigma_ext. intros r.
  rewrite births_at_negate. apply Qabs_Qopp.
Qed.

Lemma weighted_sum_negate ind (g : list (@merged_row Q)) :
  weighted_sum ind (map negate_births g) = weighted_sum ind g.
Proof.
  unfold weighted_sum. rewrite sigma_map. apply sigma_ext. intros r.
  rewrite births_at_negate, value_at_negate.
  change (absv (- births_at r)) with (Qabs (- births_at r)).
  now rewrite Qabs_Qopp.
Qed.

Lemma sumQ_opp (l : list Q) : sumQ (map Qopp l) == - sumQ l.
Proof.
  induction l as [|x l IH]; [reflexivity|].
  simpl map. rewrite !sumQ_cons, IH. ring.
Qed.

Lemma signed_total_negate (g : list (@merged_row Q)) :
  signed_total (map negate_births g) == - signed_total g.
Proof.
  unfold signed_total. rewrite sigma_map.
  rewrite (sigma_ext _ (fun r => - births_at r) g births_at_negate).
  rewrite <- (sum_map (fun r => - births_at r)), <- (sum_map births_at).
  rewrite !sumQ_is_sum, <- (map_map births_at Qopp). apply sumQ_opp.
Qed.

(** X20.  Reversing the sign of every births value changes nothing in a
    summary but [total_births], which changes sign: the weighted coverage,
    the minimum, the maximum, the median, the number and the list of
    countries are the same, and the function fails on the one table
    exactly when it fails on the other. *)
Theorem births_sign_only_affects_total
    (df : list (@merged_row Q)) (ind : indicator) (status : pystr) :
  match calculate_population_weighted_coverage df ind status,
        calculate_population_weighted_coverage (map negate_births df)
                                               ind status with
  | Return s, Return s' =>
      weighted_coverage s' = weighted_coverage s
      /\ min_coverage s' = min_coverage s
      /\ max_coverage s' = max_coverage s
      /\ median_coverage s' = median_coverage s
      /\ n_countries s' = n_countries s
      /\ countries s' = countries s
      /\ exists t t', total_births s = Some t /\ total_births s' = Some t'
                      /\ t' == - t
  | Raise e, Raise e' => e = e'
  | _, _ => False
  end.
Proof.
  destruct (subset df ind status) as [|r g] eqn:Eg.
  - rewrite (empty_group_summary_eq df ind status Eg).
    rewrite (empty_group_summary_eq (map negate_births df) ind status)
      by (now rewrite subset_negate, Eg).
    cbn. repeat split. exists 0, 0. repeat split.
  - assert (Hne : subset df ind status <> []) by (rewrite Eg; discriminate).
    assert (Hne' : subset (map negate_births df) ind status <> []).
    { rewrite subset_negate, Eg. discriminate. }
    clear Eg r g.
    destruct (eqb (total_weight (subset df ind status)) zero) eqn:Ew.
    + rewrite (calculate_zero_weight df ind status Hne Ew).
      rewrite (calculate_zero_weight (map negate_births df) ind status Hne')
        by (now rewrite subset_negate, total_weight_negate).
      reflexivity.
    + rewrite (calculate_nonempty df ind status Hne Ew).
      rewrite (calculate_nonempty (map negate_births df) ind status Hne')
        by (now rewrite subset_negate, total_weight_negate).
      cbn [weighted_coverage min_coverage max_coverage median_coverage
           n_countries countries total_births group_summary].
      rewrite subset_negate, weighted_sum_negate, total_weight_negate.
      rewrite !map_map, length_map.
      rewrite (map_ext _ _ (value_at_negate ind)).
      repeat split.
      eexists. eexists. split; [reflexivity|]. split; [reflexivity|].
      apply signed_total_negate.
Qed.

End SignFacts.

(** *** Uniform coverage and row order *)

Section OrderFacts.

Local Open Scope Q_scope.

Lemma total_weight_nonneg (g : list (@merged_row Q)) : 0 <= total_weight g.
Proof.
  rewrite total_weight_sumQ. apply sumQ_nonneg.
  rewrite <- (map_map births_at Qabs). apply map_Qabs_nonneg.
Qed.

Lemma total_weight_pos (g : list (@merged_row Q)) :
  eqb (total_weight g) zero = false -> 0 < total_weight g.
Proof.
  intros Ew. pose proof (total_weight_nonneg g) as Hn.
  destruct (Qlt_le_dec 0 (total_weight g)) as [Hlt|Hle]; [exact Hlt|].
  assert (E : total_weight g == 0) by lra.
  apply eqb_zero_Q in E. congruence.
Qed.

Lemma weighted_sum_sumQ ind (g : list (@merged_row Q)) :
  weighted_sum ind g
  = sumQ (multiply (map (value_at ind) g)
                   (map (fun r => Qabs (births_at r)) g)).
Proof. unfold weighted_sum. rewrite <- sum_map, <- multiply_map. reflexivity. Qed.

(** X21.  In exact arithmetic, when every country of a non-empty group has
    the same indicator value, the weighted coverage of a returned summary
    is that value, whatever the births; a group of one country is the
    simplest case. *)
Theorem uniform_coverage
    (df : list (@merged_row Q)) (ind : indicator) (status : pystr)
    (s : summary Q) (v : Q) :
  calculate_population_weighted_coverage df ind status = Return s ->
  subset df ind status <> [] ->
  Forall (fun r => value_at ind r == v) (subset df ind status) ->
  exists wc, weighted_coverage s = Some wc /\ wc == v.
Proof.
  intros Es Hne Hv.
  destruct (calculate_returns_group_summary df ind status s Es Hne)
    as [Ew ->].
  cbn [weighted_coverage group_summary]. eexists. split; [reflexivity|].
  set (g := subset df ind status) in *.
  pose proof (total_weight_pos g Ew) as Hpos.
  destruct (weighted_sum_bounds v v (map (value_at ind) g)
              (map (fun r => Qabs (births_at r)) g)) as [B1 B2].
  - now rewrite !length_map.
  - rewrite Forall_map. rewrite Forall_forall in *. intros r Hr.
    rewrite (Hv r Hr). apply Qle_refl.
  - rewrite Forall_map. rewrite Forall_forall in *. intros r Hr.
    rewrite (Hv r Hr). apply Qle_refl.
  - rewrite <- (map_map births_at Qabs). apply map_Qabs_nonneg.
  - rewrite <- weighted_sum_sumQ, <- total_weight_sumQ in B1, B2.
    change (div (weighted_sum ind g) (total_weight g))
      with (weighted_sum ind g / total_weight g).
    apply Qle_antisym.
    + now apply Qle_shift_div_r.
    + now apply Qle_shift_div_l.
Qed.

Lemma sumQ_perm (l l' : list Q) : Permutation l l' -> sumQ l == sumQ l'.
Proof.
  induction 1 as [|x l l' _ IH|x y l|l l' l'' _ IH1 _ IH2].
  - reflexivity.
  - now rewrite !sumQ_cons, IH.
  - rewrite !sumQ_cons. ring.
  - now rewrite IH1.
Qed.

Lemma filter_perm {X} (f : X -> bool) (l l' : list X) :
  Permutation l l' -> Permutation (filter f l) (filter f l').
Proof.
  induction 1 as [|x l l' _ IH|x y l|l l' l'' _ IH1 _ IH2]; simpl.
  - constructor.
  - destruct (f x); [now constructor|exact IH].
  - destruct (f x), (f y); try reflexivity. apply perm_swap.
  - now transitivity (filter f l').
Qed.

(** Equality of two optional rationals as numbers. *)
Definition same_number (a b : option Q) : Prop :=
  match a, b with
  | Some x, Some y => x == y
  | None, None => True
  | _, _ => False
  end.

(** X22.  In exact arithmetic the order of the rows of the table does not
    matter: on a reordered table the function fails or returns alike, and
    the two summaries agree in the number of countries and, as numbers,
    in the weighted coverage, the total births, the minimum and the
    maximum. *)
Theorem row_order_is_irrelevant
    (df df' : list (@merged_row Q)) (ind : indicator) (status : pystr) :
  Permutation df df' ->
  match calculate_population_weighted_coverage df ind status,
        calculate_population_weighted_coverage df' ind status with
  | Return s, Return s' =>
      n_countries s = n_countries s'
      /\ same_number (weighted_coverage s) (weighted_coverage s')
      /\ same_number (total_births s) (total_births s')
      /\ same_number (min_coverage s) (min_coverage s')
      /\ same_number (max_coverage s) (max_coverage s')
  | Raise e, Raise e' => e = e'
  | _, _ => False
  end.
Proof.
  intros Hperm.
  pose proof (filter_perm
                (fun r => cell_eqb (status_of r) (Str status)
                          && notna (indicator_of ind r)
                          && notna (births_of r))%bool df df' Hperm) as Hg.
  fold (subset df ind status) in Hg. fold (subset df' ind status) in Hg.
  destruct (subset df ind status) as [|r g] eqn:Eg.
  { apply Permutation_nil in Hg.
    rewrite (empty_group_summary_eq df ind status Eg).
    rewrite (empty_group_summary_eq df' ind status Hg).
    cbn. repeat split. }
  assert (Hne : subset df ind status <> []) by (rewrite Eg; discriminate).
  assert (Hne' : subset df' ind status <> []).
  { intros E. rewrite E in Hg. apply Permutation_sym, Permutation_nil in Hg.
    discriminate Hg. }
  rewrite <- Eg in Hg. clear Eg r g.
  set (g := subset df ind status) in *. set (g' := subset df' ind status) in *.
  assert (Etw : total_weight g == total_weight g').
  { rewrite !total_weight_sumQ. apply sumQ_perm. now apply Permutation_map. }
  assert (Ews : weighted_sum ind g == weighted_sum ind g').
  { unfold weighted_sum. rewrite <- !sum_map, !sumQ_is_sum.
    apply sumQ_perm. now apply Permutation_map. }
  assert (Est : signed_total g == signed_total g').
  { unfold signed_total. rewrite <- !sum_map, !sumQ_is_sum.
    apply sumQ_perm. now apply Permutation_map. }
  assert (Eb : eqb (total_weight g) zero = eqb (total_weight g') zero).
  { change (Qeq_bool (total_weight g) 0 = Qeq_bool (total_weight g') 0).
    destruct (Qeq_bool (total_weight g') 0) eqn:E'.
    - apply Qeq_bool_iff. apply Qeq_bool_iff in E'. now rewrite Etw.
    - destruct (Qeq_bool (total_weight g) 0) eqn:E; [|reflexivity].
      apply Qeq_bool_iff in E. rewrite Etw in E.
      apply Qeq_bool_iff in E. congruence. }
  destruct (eqb (total_weight g') zero) eqn:Ew'.
  - rewrite (calculate_zero_weight df ind status Hne Eb).
    now rewrite (calculate_zero_weight df' ind status Hne' Ew').
  - rewrite (calculate_nonempty df ind status Hne Eb).
    rewrite (calculate_nonempty df' ind status Hne' Ew').
    cbn [weighted_coverage min_coverage max_coverage n_countries
         total_births group_summary]. fold g g'.
    assert (Hpv : Permutation (map (value_at ind) g) (map (value_at ind) g'))
      by (now apply Permutation_map).
    assert (Hgv : map (value_at ind) g <> []) by (now destruct g).
    assert (Hgv' : map (value_at ind) g' <> []) by (now destruct g').
    split; [now apply Permutation_length|].
    split.
    { simpl. change (weighted_sum ind g / total_weight g
                     == weighted_sum ind g' / total_weight g').
      now rewrite Ews, Etw. }
    split; [exact Est|]. split.
    + destruct (minimum_nonempty _ Hgv) as [lo Elo].
      destruct (minimum_nonempty _ Hgv') as [lo' Elo'].
      rewrite Elo, Elo'. simpl. apply Qle_antisym.
      * pose proof (minimum_le _ _ Elo) as Hle. rewrite Forall_forall in Hle.
        apply Hle. eapply Permutation_in; [symmetry; exact Hpv|].
        now apply minimum_In.
      * pose proof (minimum_le _ _ Elo') as Hle. rewrite Forall_forall in Hle.
        apply Hle. eapply Permutation_in; [exact Hpv|].
        now apply minimum_In.
    + destruct (maximum_nonempty _ Hgv) as [hi Ehi].
      destruct (maximum_nonempty _ Hgv') as [hi' Ehi'].
      rewrite Ehi, Ehi'. simpl. apply Qle_antisym.
      * pose proof (maximum_ge _ _ Ehi') as Hle. rewrite Forall_forall in Hle.
        apply Hle. eapply Permutation_in; [exact Hpv|].
        now apply maximum_In.
      * pose proof (maximum_ge _ _ Ehi) as Hle. rewrite Forall_forall in Hle.
        apply Hle. eapply Permutation_in; [symmetry; exact Hpv|].
        now apply maximum_In.
Qed.

End OrderFacts.

Lemma uniform_coverage_witness :
  let df := [merged_of (u "A") on_track (Some 40%Q) None (Some (-5000)%Q);
             merged_of (u "B") on_track (Some (80 # 2)%Q) None (Some 300%Q)] in
  exists wc,
    weighted_coverage (group_summary IndANC4 on_track df) = Some wc
    /\ (wc == 40)%Q.
Proof.
  intros df. apply (uniform_coverage df IndANC4 on_track).
  - vm_compute. reflexivity.
  - vm_compute. discriminate.
  - vm_compute. repeat constructor.
Defined.

Lemma row_order_witness :
  let a := merged_of (u "A") off_track (Some 20%Q) None (Some 100%Q) in
  let b := merged_of (u "B") off_track (Some 80%Q) None (Some 300%Q) in
  match calculate_population_weighted_coverage [a; b] IndANC4 off_track,
        calculate_population_weighted_coverage [b; a] IndANC4 off_track with
  | Return s, Return s' =>
      n_countries s = n_countries s'
      /\ same_number (weighted_coverage s) (weighted_coverage s')
      /\ same_number (total_births s) (total_births s')
      /\ same_number (min_coverage s) (min_coverage s')
      /\ same_number (max_coverage s) (max_coverage s')
  | Raise e, Raise e' => e = e'
  | _, _ => False
  end.
Proof.
  intros a b. apply row_order_is_irrelevant. apply perm_swap.
Defined.

(** ** The analysis of one indicator: [analyze_coverage_by_indicator] *)

(** Subtraction and strict comparison, which the analysis uses besides
    the operations of [Num]. *)
Class NumCmp (T : Type) := {
  sub : T -> T -> T;
  ltb : T -> T -> bool
}.

#[export] Instance NumCmp_Q : NumCmp Q := {
  sub := Qminus;
  ltb := fun x y => negb (Qle_bool y x)
}.

#[export] Instance NumCmp_float : NumCmp float := {
  sub := PrimFloat.sub;
  ltb := PrimFloat.ltb
}.

(** The dictionary [analyze_coverage_by_indicator] returns: the two
    summaries and, when they are set, the keys ['coverage_gap'] and
    ['relative_difference']. *)
Record analysis (T : Type) := {
  res_on_track : summary T;
  res_off_track : summary T;
  coverage_gap : option T;
  relative_difference : option T
}.
Arguments res_on_track {T} a.
Arguments res_off_track {T} a.
Arguments coverage_gap {T} a.
Arguments relative_difference {T} a.

Section Analysis.

Context {T : Type} `{Num T} `{NumCmp T}.

(** The value the function returns on a table that has the births
    column; what it prints is left out.  The test [... is not np.nan]
    holds of every computed number and fails only for the [np.nan] the
    empty summary carries.  [analyze_on_merged] below covers the table
    without [Births_2022]. *)
Definition analyze_coverage_by_indicator
    (df : list (@merged_row T)) (ind : indicator) : outcome (analysis T) :=
  match calculate_population_weighted_coverage df ind on_track with
  | Raise e => Raise e
  | Return on =>
      match calculate_population_weighted_coverage df ind off_track with
      | Raise e => Raise e
      | Return off =>
          match weighted_coverage on, weighted_coverage off with
          | Some c_on, Some c_off =>
              let gap := sub c_on c_off in
              Return {| res_on_track := on;
                        res_off_track := off;
                        coverage_gap := Some gap;
                        relative_difference :=
                          Some (mul (div gap c_off) (of_Z 100)) |}
          | _, _ =>
              Return {| res_on_track := on;
                        res_off_track := off;
                        coverage_gap := None;
                        relative_difference := None |}
          end
      end
  end.

(** A row of the summary table; [None] is [np.nan]. *)
Record table_row := {
  Indicator_col : indicator;
  Track_Status : pystr;
  N_Countries : option nat;
  Total_Births : option T;
  Weighted_Coverage_Percent : option T;
  Min_Coverage_Percent : option T;
  Max_Coverage_Percent : option T;
  Median_Coverage_Percent : option T
}.

Definition status_row (ind : indicator) (status : pystr) (result : summary T)
  : table_row :=
  {| Indicator_col := ind;
     Track_Status := status;
     N_Countries := Some (n_countries result);
     Total_Births := total_births result;
     Weighted_Coverage_Percent := weighted_coverage result;
     Min_Coverage_Percent := min_coverage result;
     Max_Coverage_Percent := max_coverage result;
     Median_Coverage_Percent := median_coverage result |}.

Definition gap_analysis : pystr := u "gap_analysis".

Definition gap_rows (ind : indicator) (results : analysis T)
  : list table_row :=
  match coverage_gap results with
  | Some gap =>
      [{| Indicator_col := ind;
          Track_Status := gap_analysis;
          N_Countries := None;
          Total_Births := None;
          Weighted_Coverage_Percent := Some gap;
          Min_Coverage_Percent := None;
          Max_Coverage_Percent := None;
          Median_Coverage_Percent := None |}]
  | None => []
  end.

(** [create_summary_table]: the status rows of the two indicators, then
    their gap rows. *)
Definition create_summary_table (anc4_results sba_results : analysis T)
  : list table_row :=
  flat_map (fun '(ind, results) =>
              [status_row ind on_track (res_on_track results);
               status_row ind off_track (res_off_track results)])
           [(IndANC4, anc4_results); (IndSBA, sba_results)]
  ++ flat_map (fun '(ind, results) => gap_rows ind results)
              [(IndANC4, anc4_results); (IndSBA, sba_results)].

(** [categorize_coverage] of [save_detailed_results]. *)
Inductive category :=
| No_Data
| Low
| Medium
| High.

Definition categorize_coverage (value : option T) : category :=
  match value with
  | None => No_Data
  | Some v =>
      if ltb v (of_Z 50) then Low
      else if ltb v (of_Z 80) then Medium
      else High
  end.

(** [max(a, b)] of Python: the first argument unless the second is
    larger. *)
Definition py_max (a b : T) : T := if ltb a b then b else a.

(** The births [print_interpretation] reports for one track status: the
    largest positive [total_births] of the two analyses, starting from
    zero. *)
Definition reported_births (select : analysis T -> summary T)
    (anc4_results sba_results : analysis T) : T :=
  fold_left
    (fun acc results =>
       match total_births (select results) with
       | Some t => if ltb zero t then py_max acc t else acc
       | None => acc
       end)
    [anc4_results; sba_results] zero.

End Analysis.

Section AnalysisFacts.

Context {T : Type} `{Num T} `{NumCmp T}.

(** A returned summary carries a weighted coverage exactly when its group
    is not empty. *)
Lemma weighted_coverage_None_iff (df : list (@merged_row T)) ind status
      (s : summary T) :
  calculate_population_weighted_coverage df ind status = Return s ->
  (weighted_coverage s = None <-> subset df ind status = []).
Proof.
  intros Es. destruct (subset df ind status) as [|r g] eqn:Eg.
  - rewrite (empty_group_summary_eq df ind status Eg) in Es.
    injection Es as <-. simpl. tauto.
  - assert (Hne : subset df ind status <> []) by (rewrite Eg; discriminate).
    destruct (calculate_returns_group_summary df ind status s Es Hne)
      as [_ ->].
    simpl. split; discriminate.
Qed.

(** X23.  When [analyze_coverage_by_indicator] returns, it holds the two
    summaries of the indicator; it sets the coverage gap exactly when both
    the on-track and the off-track group are non-empty, together with the
    relative difference, and the gap is the on-track weighted coverage
    minus the off-track one. *)
Theorem coverage_gap_iff_both_groups
    (df : list (@merged_row T)) (ind : indicator) (a : analysis T) :
  analyze_coverage_by_indicator df ind = Return a ->
  calculate_population_weighted_coverage df ind on_track
  = Return (res_on_track a)
  /\ calculate_population_weighted_coverage df ind off_track
     = Return (res_off_track a)
  /\ (coverage_gap a <> None <->
      subset df ind on_track <> [] /\ subset df ind off_track <> [])
  /\ (coverage_gap a = None <-> relative_difference a = None)
  /\ (forall gap, coverage_gap a = Some gap ->
        exists c_on c_off,
          weighted_coverage (res_on_track a) = Some c_on
          /\ weighted_coverage (res_off_track a) = Some c_off
          /\ gap = sub c_on c_off
          /\ relative_difference a
             = Some (mul (div gap c_off) (of_Z 100))).
Proof.
  unfold analyze_coverage_by_indicator.
  destruct (calculate_population_weighted_coverage df ind on_track)
    as [on|e] eqn:Eon; [|discriminate].
  destruct (calculate_population_weighted_coverage df ind off_track)
    as [off|e] eqn:Eoff; [|discriminate].
  pose proof (weighted_coverage_None_iff df ind on_track on Eon) as Hon.
  pose proof (weighted_coverage_None_iff df ind off_track off Eoff) as Hoff.
  destruct (weighted_coverage on) as [c_on|] eqn:Won;
    [destruct (weighted_coverage off) as [c_off|] eqn:Woff|];
    intros [= <-]; cbn [res_on_track res_off_track coverage_gap
                        relative_difference];
    (split; [reflexivity|]); (split; [reflexivity|]).
  - split; [|split].
    + split; [intros _|discriminate].
      split; intros E; [apply Hon in E|apply Hoff in E]; discriminate E.
    + split; discriminate.
    + intros gap [= <-]. exists c_on, c_off. rewrite Won, Woff. auto.
  - split; [|split].
    + split; [congruence|]. intros [_ E]. exfalso. apply E.
      now apply Hoff.
    + tauto.
    + discriminate.
  - split; [|split].
    + split; [congruence|]. intros [E _]. exfalso. apply E.
      now apply Hon.
    + tauto.
    + discriminate.
Qed.

(** The group of [status] is non-empty and its absolute weights sum to
    zero. *)
Definition zero_weight_group (df : list (@merged_row T)) (ind : indicator)
    (status : pystr) : Prop :=
  subset df ind status <> []
  /\ eqb (total_weight (subset df ind status)) zero = true.

Lemma calculate_returns_or_zero_weight (df : list (@merged_row T))
      ind status :
  (exists s, calculate_population_weighted_coverage df ind status = Return s)
  \/ (calculate_population_weighted_coverage df ind status
      = Raise ZeroDivisionError
      /\ zero_weight_group df ind status).
Proof.
  destruct (calculate_population_weighted_coverage df ind status)
    as [s|e] eqn:E; [left; now exists s|right].
  destruct (calculate_raise_inv df ind status e E) as (-> & Hne & Hw).
  split; [reflexivity|now split].
Qed.

(** On a table that has the births column, the analysis fails exactly
    when one of the two groups is non-empty with zero weight. *)
Lemma analyze_raise_iff
    (df : list (@merged_row T)) (ind : indicator) (e : exn) :
  analyze_coverage_by_indicator df ind = Raise e
  <-> e = ZeroDivisionError
      /\ (zero_weight_group df ind on_track
          \/ zero_weight_group df ind off_track).
Proof.
  unfold analyze_coverage_by_indicator.
  destruct (calculate_returns_or_zero_weight df ind on_track)
    as [[on Eon]|[Eon Zon]]; rewrite Eon.
  - destruct (calculate_returns_or_zero_weight df ind off_track)
      as [[off Eoff]|[Eoff Zoff]]; rewrite Eoff.
    + split.
      * destruct (weighted_coverage on), (weighted_coverage off);
          discriminate.
      * intros [_ [[Hne Hw]|[Hne Hw]]].
        -- rewrite (calculate_zero_weight df ind on_track Hne Hw) in Eon.
           discriminate Eon.
        -- rewrite (calculate_zero_weight df ind off_track Hne Hw) in Eoff.
           discriminate Eoff.
    + split; [intros [= <-]; auto|intros [-> _]; reflexivity].
  - split; [intros [= <-]; auto|intros [-> _]; reflexivity].
Qed.

(** [analyze_coverage_by_indicator] on the table [merge_datasets]
    returns: the same loop over the two statuses, with the look-ups of
    the columns as [calculate_on_merged] has them. *)
Definition analyze_on_merged (m : merged T) (ind : indicator)
  : outcome (analysis T) :=
  match calculate_on_merged m ind on_track with
  | Raise e => Raise e
  | Return on =>
      match calculate_on_merged m ind off_track with
      | Raise e => Raise e
      | Return off =>
          match weighted_coverage on, weighted_coverage off with
          | Some c_on, Some c_off =>
              let gap := sub c_on c_off in
              Return {| res_on_track := on;
                        res_off_track := off;
                        coverage_gap := Some gap;
                        relative_difference :=
                          Some (mul (div gap c_off) (of_Z 100)) |}
          | _, _ =>
              Return {| res_on_track := on;
                        res_off_track := off;
                        coverage_gap := None;
                        relative_difference := None |}
          end
      end
  end.

Lemma analyze_on_merged_with_births
      (df : list (@merged_row T)) (ind : indicator) :
  analyze_on_merged (With_births df) ind
  = analyze_coverage_by_indicator df ind.
Proof. reflexivity. Qed.

(** X24.  On a table [merge_datasets] returns and for the indicators
    ['ANC4'] and ['SBA'], [analyze_coverage_by_indicator] raises in
    exactly two cases: [KeyError] for [Births_2022] when the table lacks
    the births column, and [ZeroDivisionError] when the table has the
    column and the on-track or the off-track group of the indicator is
    non-empty with absolute weights that sum to zero.  One such group
    makes the analysis of the indicator fail even when the other group is
    sound; in every other case the analysis returns. *)
Theorem analyze_on_merged_raises
    (m : merged T) (ind : indicator) (e : exn) :
  analyze_on_merged m ind = Raise e
  <-> match m with
      | Without_births _ => e = KeyError (u "Births_2022")
      | With_births df =>
          e = ZeroDivisionError
          /\ (zero_weight_group df ind on_track
              \/ zero_weight_group df ind off_track)
      end.
Proof.
  destruct m as [df|df].
  - rewrite analyze_on_merged_with_births. apply analyze_raise_iff.
  - unfold analyze_on_merged. cbn [calculate_on_merged].
    split; [intros [= <-]|intros ->]; reflexivity.
Qed.

(** Both groups of the indicator are non-empty. *)
Definition has_both_groups (df : list (@merged_row T)) (ind : indicator)
  : bool :=
  negb (length (subset df ind on_track) =? 0)
  && negb (length (subset df ind off_track) =? 0).

(** The gap row of [ind], as [create_summary_table] writes it. *)
Definition gap_row (ind : indicator) (gap : T) : table_row :=
  {| Indicator_col := ind;
     Track_Status := gap_analysis;
     N_Countries := None;
     Total_Births := None;
     Weighted_Coverage_Percent := Some gap;
     Min_Coverage_Percent := None;
     Max_Coverage_Percent := None;
     Median_Coverage_Percent := None |}.

(** The gap rows of one indicator: one row with the coverage gap of the
    analysis when both groups are non-empty, no row otherwise. *)
Definition gap_layout (df : list (@merged_row T)) (ind : indicator)
    (a : analysis T) (gaps : list table_row) : Prop :=
  if has_both_groups df ind
  then exists gap, coverage_gap a = Some gap /\ gaps = [gap_row ind gap]
  else coverage_gap a = None /\ gaps = [].

Lemma gap_rows_layout (df : list (@merged_row T)) ind (a : analysis T) :
  analyze_coverage_by_indicator df ind = Return a ->
  gap_layout df ind a (gap_rows ind a).
Proof.
  unfold analyze_coverage_by_indicator.
  destruct (calculate_population_weighted_coverage df ind on_track)
    as [on|e] eqn:Eon; [|discriminate].
  destruct (calculate_population_weighted_coverage df ind off_track)
    as [off|e] eqn:Eoff; [|discriminate].
  pose proof (weighted_coverage_None_iff df ind on_track on Eon) as Hon.
  pose proof (weighted_coverage_None_iff df ind off_track off Eoff) as Hoff.
  unfold gap_layout, has_both_groups, gap_rows.
  destruct (weighted_coverage on) as [c_on|] eqn:Won;
    [destruct (weighted_coverage off) as [c_off|] eqn:Woff|];
    intros [= <-]; cbn [coverage_gap].
  - destruct (subset df ind on_track);
      [discriminate (proj2 Hon eq_refl)|].
    destruct (subset df ind off_track);
      [discriminate (proj2 Hoff eq_refl)|].
    simpl. eexists. split; reflexivity.
  - rewrite (proj1 Hoff eq_refl). simpl. rewrite andb_false_r.
    split; reflexivity.
  - rewrite (proj1 Hon eq_refl). simpl. split; reflexivity.
Qed.

(** X25.  The table [create_summary_table] builds from the analyses of the
    two indicators starts with the four status rows, ANC4 before SBA and
    on-track before off-track, and ends with the gap rows of ANC4 followed
    by those of SBA.  An indicator has one gap row when both of its groups
    are non-empty and none otherwise; the gap row names the indicator,
    has the track status ['gap_analysis'], carries the coverage gap of the
    indicator's analysis as its coverage, and has no count, no births and
    no minimum, maximum or median. *)
Theorem summary_table_layout
    (df : list (@merged_row T)) (anc4_results sba_results : analysis T) :
  analyze_coverage_by_indicator df IndANC4 = Return anc4_results ->
  analyze_coverage_by_indicator df IndSBA = Return sba_results ->
  exists anc4_gaps sba_gaps,
    create_summary_table anc4_results sba_results
    = [status_row IndANC4 on_track (res_on_track anc4_results);
       status_row IndANC4 off_track (res_off_track anc4_results);
       status_row IndSBA on_track (res_on_track sba_results);
       status_row IndSBA off_track (res_off_track sba_results)]
      ++ anc4_gaps ++ sba_gaps
    /\ gap_layout df IndANC4 anc4_results anc4_gaps
    /\ gap_layout df IndSBA sba_results sba_gaps.
Proof.
  intros E1 E2.
  exists (gap_rows IndANC4 anc4_results), (gap_rows IndSBA sba_results).
  split; [unfold create_summary_table; simpl; now rewrite app_nil_r|].
  split; apply gap_rows_layout; assumption.
Qed.

End AnalysisFacts.

(** A table with both ANC4 groups and no on-track SBA value. *)
Definition two_group_table : list (@merged_row Q) :=
  [merged_of (u "A") on_track (Some 90%Q) None (Some 100%Q);
   merged_of (u "B") off_track (Some 50%Q) (Some 60%Q) (Some 300%Q)].

Lemma coverage_gap_witness :
  exists a,
    analyze_coverage_by_indicator two_group_table IndANC4 = Return a
    /\ (coverage_gap a <> None <->
        subset two_group_table IndANC4 on_track <> []
        /\ subset two_group_table IndANC4 off_track <> []).
Proof.
  eexists. split; [vm_compute; reflexivity|].
  refine (proj1 (proj2 (proj2
            (coverage_gap_iff_both_groups two_group_table IndANC4 _ _)))).
  vm_compute. reflexivity.
Defined.

Lemma summary_table_witness :
  exists (a1 a2 : analysis Q) anc4_gaps sba_gaps,
    create_summary_table a1 a2
    = [status_row IndANC4 on_track (res_on_track a1);
       status_row IndANC4 off_track (res_off_track a1);
       status_row IndSBA on_track (res_on_track a2);
       status_row IndSBA off_track (res_off_track a2)]
      ++ anc4_gaps ++ sba_gaps
    /\ gap_layout two_group_table IndANC4 a1 anc4_gaps
    /\ gap_layout two_group_table IndSBA a2 sba_gaps.
Proof.
  eexists. eexists.
  apply (summary_table_layout two_group_table); vm_compute; reflexivity.
Defined.

Lemma analyze_on_merged_raises_witness :
  analyze_on_merged
    (With_births
       [merged_of (u "A") on_track (Some 90%Q) None (Some 100%Q);
        merged_of (u "B") off_track (Some 50%Q) None (Some 0%Q)])
    IndANC4
  = Raise ZeroDivisionError
  /\ analyze_on_merged
       (Without_births
          [mkRow (Str (u "A"))
                 ({| ISO3Code := NaN; Mortality_Status_Binary := Str on_track |},
                  {| ANC4 := Some 90%Q; SBA := None |})])
       IndANC4
     = Raise (KeyError (u "Births_2022")).
Proof.
  split.
  - apply (proj2 (analyze_on_merged_raises
                    (With_births
                       [merged_of (u "A") on_track (Some 90%Q) None
                                  (Some 100%Q);
                        merged_of (u "B") off_track (Some 50%Q) None
                                  (Some 0%Q)])
                    IndANC4 ZeroDivisionError)).
    split; [reflexivity|]. right. split; [discriminate|reflexivity].
  - apply (proj2 (analyze_on_merged_raises
                    (Without_births
                       [mkRow (Str (u "A"))
                              ({| ISO3Code := NaN;
                                  Mortality_Status_Binary := Str on_track |},
                               {| ANC4 := Some 90%Q; SBA := None |})])
                    IndANC4 (KeyError (u "Births_2022")))).
    reflexivity.
Defined.

(** ** Coverage categories and reported births *)

Definition category_rank (c : category) : nat :=
  match c with
  | No_Data => 0
  | Low => 1
  | Medium => 2
  | High => 3
  end.

Section CategoryFacts.

Local Open Scope Q_scope.

Lemma ltb_Q_iff (x y : Q) : ltb x y = true <-> x < y.
Proof.
  change (negb (Qle_bool y x) = true <-> x < y).
  rewrite negb_true_iff. split.
  - intros E. apply Qnot_le_lt. intros Hle.
    apply Qle_bool_iff in Hle. congruence.
  - intros Hlt. destruct (Qle_bool y x) eqn:E; [|reflexivity].
    apply Qle_bool_iff in E. lra.
Qed.

Lemma ltb_Q_false_iff (x y : Q) : ltb x y = false <-> y <= x.
Proof.
  destruct (ltb x y) eqn:E.
  - apply ltb_Q_iff in E. split; [discriminate|lra].
  - split; [intros _|reflexivity].
    destruct (Qlt_le_dec x y) as [Hlt|Hle]; [|exact Hle].
    apply ltb_Q_iff in Hlt. congruence.
Qed.

(** X26.  In exact arithmetic [categorize_coverage] cuts the present
    values into three intervals, low below 50, medium from 50 to below
    80, high from 80 on, so that a larger value never falls into a lower
    category; only a missing value is "No Data". *)
Theorem categorize_coverage_intervals (v w : Q) :
  (categorize_coverage (Some v) = Low <-> v < 50)
  /\ (categorize_coverage (Some v) = Medium <-> 50 <= v /\ v < 80)
  /\ (categorize_coverage (Some v) = High <-> 80 <= v)
  /\ categorize_coverage (Some v) <> No_Data
  /\ (v <= w ->
      (category_rank (categorize_coverage (Some v))
       <= category_rank (categorize_coverage (Some w)))%nat).
Proof.
  assert (Hcases : forall x : Q,
             (x < 50 /\ categorize_coverage (Some x) = Low)
             \/ (50 <= x /\ x < 80 /\ categorize_coverage (Some x) = Medium)
             \/ (80 <= x /\ categorize_coverage (Some x) = High)).
  { intros x. unfold categorize_coverage.
    change (@of_Z Q _ 50) with 50. change (@of_Z Q _ 80) with 80.
    destruct (ltb x 50) eqn:E1.
    - left. split; [now apply ltb_Q_iff|reflexivity].
    - apply ltb_Q_false_iff in E1. right.
      destruct (ltb x 80) eqn:E2.
      + left. split; [exact E1|]. split; [now apply ltb_Q_iff|reflexivity].
      + right. split; [now apply ltb_Q_false_iff|reflexivity]. }
  destruct (Hcases v) as [[Hv Ev]|[[Hv1 [Hv2 Ev]]|[Hv Ev]]]; rewrite Ev;
    (split; [|split; [|split; [|split]]]);
    try (split; [discriminate|intros; exfalso; lra]);
    try (split; [intros _; auto|reflexivity]);
    try discriminate;
    intros Hvw;
    destruct (Hcases w) as [[Hw Ew]|[[Hw1 [Hw2 Ew]]|[Hw Ew]]]; rewrite Ew;
    simpl; try lia; exfalso; lra.
Qed.

Lemma categorize_coverage_witness :
  (category_rank (categorize_coverage (Some (499 # 10)%Q))
   <= category_rank (categorize_coverage (Some 50%Q)))%nat.
Proof.
  apply (proj2 (proj2 (proj2 (proj2
           (categorize_coverage_intervals (499 # 10) 50))))).
  vm_compute. discriminate.
Defined.

Lemma py_max_Q (a b : Q) :
  a <= py_max a b /\ b <= py_max a b /\ (py_max a b = a \/ py_max a b = b).
Proof.
  unfold py_max. destruct (ltb a b) eqn:E.
  - apply ltb_Q_iff in E. repeat split; [lra|lra|now right].
  - apply ltb_Q_false_iff in E. repeat split; [lra|lra|now left].
Qed.

(** X27.  In exact arithmetic the births [print_interpretation] reports
    for a track status are never negative and never below a
    [total_births] of the two analyses, and they are zero or one of these
    two totals: a negative signed total is reported as zero. *)
Theorem reported_births_bounds
    (select : analysis Q -> summary Q) (a1 a2 : analysis Q) (t1 t2 : Q) :
  total_births (select a1) = Some t1 ->
  total_births (select a2) = Some t2 ->
  let r := reported_births select a1 a2 in
  0 <= r /\ t1 <= r /\ t2 <= r /\ (r = 0 \/ r = t1 \/ r = t2).
Proof.
  intros E1 E2. unfold reported_births. cbn [fold_left]. rewrite E1, E2.
  change (@zero Q _) with 0.
  destruct (ltb 0 t1) eqn:L1.
  - apply ltb_Q_iff in L1. destruct (py_max_Q 0 t1) as (A1 & A2 & A3).
    destruct (ltb 0 t2) eqn:L2.
    + destruct (py_max_Q (py_max 0 t1) t2) as (B1 & B2 & B3).
      repeat split; try lra.
      destruct B3 as [B3|B3]; rewrite B3; [|auto].
      destruct A3 as [A3|A3]; rewrite A3; auto.
    + apply ltb_Q_false_iff in L2. repeat split; try lra.
      destruct A3 as [A3|A3]; rewrite A3; auto.
  - apply ltb_Q_false_iff in L1.
    destruct (ltb 0 t2) eqn:L2.
    + apply ltb_Q_iff in L2. destruct (py_max_Q 0 t2) as (B1 & B2 & B3).
      repeat split; try lra.
      destruct B3 as [B3|B3]; rewrite B3; auto.
    + apply ltb_Q_false_iff in L2. repeat split; try lra. now left.
Qed.

End CategoryFacts.

Lemma reported_births_witness :
  let a1 := {| res_on_track := group_summary IndANC4 on_track
                 [merged_of (u "A") on_track (Some 90%Q) None
                            (Some (-5000)%Q)];
               res_off_track := group_summary IndANC4 off_track [];
               coverage_gap := None; relative_difference := None |} in
  let a2 := {| res_on_track := group_summary IndSBA on_track [];
               res_off_track := group_summary IndSBA off_track [];
               coverage_gap := None; relative_difference := None |} in
  reported_births res_on_track a1 a2 = 0%Q.
Proof.
  intros a1 a2.
  destruct (reported_births_bounds res_on_track a1 a2 (0 + -5000)%Q 0%Q
              eq_refl eq_refl) as (_ & _ & _ & [E|[E|E]]).
  - exact E.
  - vm_compute in E. discriminate E.
  - exact E.
Defined.
